(** * SVI sample scheduler: prioritisation and meeting calendar

    Shallow embedding of the "Write Sample Scheduler" section of the SVI
    databasing script (R, dplyr/lubridate pipeline): the eligibility filter,
    the [case_when] priority classifier, the three-key [arrange], the
    Tuesday/Friday calendar loop, the exclusion filter and the positional
    assignment of meeting dates.

    Conventions of the embedding
    - a data frame is the list of its rows, in row order;
    - an R [Date] is the integer number of days since 1970-01-01 (what R
      stores), so [d + days(k)] is [d + k] on [Z]; [NA] is [None];
    - [numeric] columns holding whole numbers are [Z] or [N]; the digits
      pulled out of a sample identifier become a double, as [as.numeric]
      makes it: the nearest one, so numbers above 2^53 are rounded;
    - the [Date Received] column comes from the spreadsheet as a date-time
      and is turned into a calendar date by the scheduler's [as.Date];
    - strings are [string]; [\\d] is read over ASCII digits. *)

From Stdlib Require Import ZArith List Bool String Ascii Lia.
From Stdlib Require Import Permutation Sorted DecimalString DecimalN.
Import ListNotations.

Local Open Scope string_scope.
Local Open Scope list_scope.
Local Open Scope Z_scope.

(** ** Calendar primitives (lubridate) *)

Module Calendar.

(** [wday(d)] with lubridate's default week start: Sunday = 1, ...,
    Saturday = 7.  Day 0 (1970-01-01) was a Thursday. *)
Definition wday (d : Z) : Z := (d + 4) mod 7 + 1.

Definition Tuesday : Z := 3.
Definition Friday : Z := 6.

(** [year(d)]: the proleptic Gregorian year of day number [d]. *)
Definition year (d : Z) : Z :=
  let z := d + 719468 in
  let era := z / 146097 in
  let doe := z - era * 146097 in
  let yoe := (doe - doe / 1460 + doe / 36524 - doe / 146096) / 365 in
  let doy := doe - (365 * yoe + yoe / 4 - yoe / 100) in
  let mp := (5 * doy + 2) / 153 in
  let m := if mp <? 10 then mp + 3 else mp - 9 in
  yoe + era * 400 + (if m <=? 2 then 1 else 0).

(** A value of the [Date Received] column: a date-time as the spreadsheet
    reader gives it for a date column (seconds since 1970-01-01 00:00 UTC),
    a calendar date (days since 1970-01-01), or [NA]. *)
Inductive received : Type :=
| POSIXct (secs : Z)
| Date (days : Z)
| NA_received.

(** [as.Date]: the calendar day of a date-time (in UTC), a calendar date as
    it is.  The result is a day number, [NA] is [None]. *)
Definition as_Date (x : received) : option Z :=
  match x with
  | POSIXct secs => Some (secs / 86400)
  | Date days => Some days
  | NA_received => None
  end.

(** A day number, or [NA], as a value of class [Date]. *)
Definition of_Date (d : option Z) : received :=
  match d with
  | Some days => Date days
  | None => NA_received
  end.

(** The instant a value stands for, in seconds since 1970-01-01 00:00 UTC;
    a calendar date stands for its midnight. *)
Definition instant (x : received) : option Z :=
  match x with
  | POSIXct secs => Some secs
  | Date days => Some (86400 * days)
  | NA_received => None
  end.

End Calendar.

(** ** stringr / base helpers *)

Module Str.

Definition is_digit (c : ascii) : bool :=
  let n := nat_of_ascii c in (48 <=? n)%nat && (n <=? 57)%nat.

Definition digit_value (c : ascii) : N := N.of_nat (nat_of_ascii c - 48).

Fixpoint take_digits (s : string) : list ascii :=
  match s with
  | EmptyString => []
  | String c s' => if is_digit c then c :: take_digits s' else []
  end.

(** [str_extract(s, "\\d+")]: the first maximal run of digits, [NA] when
    the string holds no digit. *)
Fixpoint str_extract_digits (s : string) : option (list ascii) :=
  match s with
  | EmptyString => None
  | String c s' =>
      if is_digit c then Some (c :: take_digits s') else str_extract_digits s'
  end.

(** The number a run of decimal digits denotes. *)
Definition digits_value (ds : list ascii) : N :=
  fold_left (fun acc c => (10 * acc + digit_value c)%N) ds 0%N.

(** Doubles that are whole and not negative are written as the number they
    equal; [2^1024], above every finite double, stands for [Inf]. *)
Definition double_Inf : N := N.shiftl 1 1024.

(** The double nearest to a whole number, ties to the even significand:
    exact up to 2^53, 53 significant bits beyond, [Inf] past the range. *)
Definition to_double (n : N) : N :=
  if (n <? 9007199254740992)%N then n
  else
    let e := (N.log2 n - 52)%N in
    let q := N.shiftr n e in
    let r := (n - N.shiftl q e)%N in
    let half := N.shiftl 1 (e - 1) in
    let q' := if (half <? r)%N || ((r =? half)%N && N.odd q)
              then (q + 1)%N else q in
    let v := N.shiftl q' e in
    if (double_Inf <=? v)%N then double_Inf else v.

(** [as.numeric] on a run of decimal digits: the double nearest to the
    number written. *)
Definition as_numeric (ds : list ascii) : N := to_double (digits_value ds).

Definition string_of_Z (z : Z) : string := NilZero.string_of_int (Z.to_int z).

(** [paste(a, b)] with the default separator; a missing number prints
    as [NA]. *)
Definition paste (a : string) (b : option Z) : string :=
  (a ++ " " ++ match b with Some z => string_of_Z z | None => "NA" end)%string.

(** [x %in% table] on character vectors. *)
Definition in_chr (x : string) (table : list string) : bool :=
  existsb (String.eqb x) table.

(** [x %in% table] on dates. *)
Definition in_dates (x : Z) (table : list Z) : bool :=
  existsb (Z.eqb x) table.

End Str.

(** ** Data model *)

(** The [Identifier] column: derived upstream from the suffix of the sample
    identifier, it only ever holds these three labels. *)
Inductive identifier : Type := UIC | UDD | Base.

Definition identifier_label (i : identifier) : string :=
  match i with UIC => "UIC" | UDD => "UDD" | Base => "Base" end.

Definition identifier_eqb (a b : identifier) : bool :=
  match a, b with
  | UIC, UIC | UDD, UDD | Base, Base => true
  | _, _ => false
  end.

(** One row of the scheduler's table with [Date Received] of class [Date]
    (a day number or [NA]): a row as the first [mutate] leaves it, or a row
    of a database whose dates are calendar dates already; [database_row]
    below is the row as the spreadsheet delivers it.  [proband] is 1, 0 or
    [NA]; [report] is 0 or 1.  Rows without a sample identifier always have
    [proband = NA] and never pass the filter, so [Sample_ID] is a plain
    string here. *)
Record sample : Type := mkSample {
  Sample_ID : string;
  proband : option Z;
  Date_Received : option Z;
  Identifier : identifier;
  report : Z
}.

(** A scheduler row after the first two [mutate] calls. *)
Record classified : Type := mkClassified {
  c_sample : sample;
  year_received : option Z;
  sample_id_num : option N;
  priority_level : Z
}.

(** A row of [prioritized_list]. *)
Record prioritized : Type := mkPrioritized {
  p_row : classified;
  priority_rank : nat;
  reason_for_priority : string
}.

(** A row of [final_schedule]. *)
Record scheduled : Type := mkScheduled {
  s_row : prioritized;
  meeting_date : option Z
}.

(** Everything a run reads: the joined database, the hot list, the cancelled
    meetings, the holiday table ([holidayNYSE] for the two years the script
    looks at) and the system date. *)
Record inputs : Type := mkInputs {
  svi_database : list sample;
  hotlist : list string;
  user_canceled_dates : list Z;
  us_holidays : list Z;
  Sys_Date : Z
}.

(** ** Eligibility filter *)

(** [filter(proband == 1, report == 0)]: a comparison with [NA] drops the
    row. *)
Definition eligible (r : sample) : bool :=
  match proband r with
  | Some p => (p =? 1) && (report r =? 0)
  | None => false
  end.

Definition scheduler (db : list sample) : list sample := filter eligible db.

(** ** Priority classifier *)

(** The most recent of the four literal years of the [case_when]. *)
Definition referenceYear : Z := 2025.

Definition year_is (y : option Z) (lit : Z) : bool :=
  match y with Some v => v =? lit | None => false end.

(** First [mutate]: the date coercion and the two derived keys. *)
Definition add_keys (r : sample) : sample * option Z * option N :=
  let d := Calendar.as_Date (Calendar.of_Date (Date_Received r)) in
  (mkSample (Sample_ID r) (proband r) d (Identifier r) (report r),
   option_map Calendar.year d,
   option_map Str.as_numeric (Str.str_extract_digits (Sample_ID r))).

(** Second [mutate]: the [case_when] ladder, first match wins. *)
Definition priority_level_of (hot : list string) (id : string)
    (cls : identifier) (y : option Z) : Z :=
  if Str.in_chr id hot then 0
  else if identifier_eqb cls UIC then 1
  else if identifier_eqb cls UDD && year_is y 2025 then 2
  else if identifier_eqb cls UDD && year_is y 2024 then 3
  else if identifier_eqb cls UDD && year_is y 2023 then 4
  else if identifier_eqb cls UDD && year_is y 2022 then 5
  else if identifier_eqb cls Base && year_is y 2025 then 102
  else if identifier_eqb cls Base && year_is y 2024 then 103
  else if identifier_eqb cls Base && year_is y 2023 then 104
  else if identifier_eqb cls Base && year_is y 2022 then 105
  else 999.

Definition classify_row (hot : list string) (r : sample) : classified :=
  let '(r', y, n) := add_keys r in
  mkClassified r' y n (priority_level_of hot (Sample_ID r') (Identifier r') y).

(** The label computed after the sort. *)
Definition reason_of (c : classified) : string :=
  if priority_level c =? 0 then "CRITICAL: Hot List"
  else if identifier_eqb (Identifier (c_sample c)) UIC then "Highest Priority: UIC"
  else Str.paste (identifier_label (Identifier (c_sample c))) (year_received c).

(** ** Ordering: [arrange(priority_level, `Date Received`, sample_id_num)] *)

(** Ascending comparison of one column, missing values last. *)
Definition compare_na_last {A : Type} (cmp : A -> A -> comparison)
    (x y : option A) : comparison :=
  match x, y with
  | Some a, Some b => cmp a b
  | Some _, None => Lt
  | None, Some _ => Gt
  | None, None => Eq
  end.

(** Comparison of rows on several columns: the first column that differs
    decides. *)
Definition lex_compare {A B : Type} (ca : A -> A -> comparison)
    (cb : B -> B -> comparison) (x y : A * B) : comparison :=
  match ca (fst x) (fst y) with
  | Eq => cb (snd x) (snd y)
  | c => c
  end.

Definition sort_key : Type := (Z * option Z * option N)%type.

Definition key_of (c : classified) : sort_key :=
  (priority_level c, Date_Received (c_sample c), sample_id_num c).

Definition key_compare : sort_key -> sort_key -> comparison :=
  lex_compare (lex_compare Z.compare (compare_na_last Z.compare))
              (compare_na_last N.compare).

Definition key_leb (a b : sort_key) : bool :=
  match key_compare a b with Gt => false | _ => true end.

Definition key_eqb (a b : sort_key) : bool :=
  match key_compare a b with Eq => true | _ => false end.

(** [arrange] is a stable sort: a row is placed in front of the first row
    of the already ordered tail whose key is not smaller. *)
Fixpoint insert_row (x : classified) (l : list classified) : list classified :=
  match l with
  | [] => [x]
  | y :: l' =>
      if key_leb (key_of x) (key_of y) then x :: l else y :: insert_row x l'
  end.

Fixpoint arrange (l : list classified) : list classified :=
  match l with
  | [] => []
  | x :: l' => insert_row x (arrange l')
  end.

(** Third [mutate]: [row_number()] and the reason label. *)
Definition add_rank (l : list classified) : list prioritized :=
  map (fun p => mkPrioritized (snd p) (fst p) (reason_of (snd p)))
      (combine (seq 1 (List.length l)) l).

Definition prioritized_list (hot : list string) (db : list sample)
    : list prioritized :=
  add_rank (arrange (map (classify_row hot) (scheduler db))).

(** ** Calendar generation *)

Definition do_not_schedule_dates (i : inputs) : list Z :=
  user_canceled_dates i ++ us_holidays i.

(** [today = Sys.Date() - 1]. *)
Definition today (sys_date : Z) : Z := sys_date - 1.

(** [(target - wday(today) + 7) %% 7], with 0 replaced by 7. *)
Definition days_to (target : Z) (t : Z) : Z :=
  let k := (target - Calendar.wday t + 7) mod 7 in
  if k =? 0 then 7 else k.

Definition days_to_tuesday (t : Z) : Z := days_to 3 t.
Definition days_to_friday (t : Z) : Z := days_to 6 t.

Definition first_meeting (t : Z) : Z :=
  Z.min (t + days_to_tuesday t) (t + days_to_friday t).

(** One turn of the loop body: the date that follows [current_date]. *)
Definition next_date (current_date : Z) : Z :=
  if Calendar.wday current_date =? 3 then current_date + 3 else current_date + 4.

(** The [for] loop, [n] turns starting from [current_date]. *)
Fixpoint generate_dates (n : nat) (current_date : Z) : list Z :=
  match n with
  | O => []
  | S n' => current_date :: generate_dates n' (next_date current_date)
  end.

Definition potential_dates (num_meetings : nat) (t : Z) : list Z :=
  generate_dates (num_meetings + 40) (first_meeting t).

(** [potential_dates[!potential_dates %in% do_not_schedule_dates]]. *)
Definition final_meeting_dates (num_meetings : nat) (t : Z) (skip : list Z)
    : list Z :=
  filter (fun d => negb (Str.in_dates d skip)) (potential_dates num_meetings t).

(** ** Positional assignment *)

(** R's [1:n]; it counts down to 0 when [n] is 0. *)
Definition one_to (n : nat) : list nat :=
  match n with
  | O => [1%nat; 0%nat]
  | S _ => seq 1 n
  end.

(** [v[idx]] for non-negative indices: a 0 selects nothing, an index past
    the end selects [NA]. *)
Definition subset_at {A : Type} (v : list A) (idx : list nat) : list (option A) :=
  flat_map (fun i => match i with
                     | O => []
                     | S j => [nth_error v j]
                     end) idx.

(** [mutate(meeting_date = col)]: the column must have one value per row, or
    a single value that is recycled; anything else is an error. *)
Definition mutate_meeting_date (rows : list prioritized)
    (col : list (option Z)) : option (list scheduled) :=
  if (List.length col =? List.length rows)%nat then
    Some (map (fun p => mkScheduled (fst p) (snd p)) (combine rows col))
  else
    match col with
    | [v] => Some (map (fun r => mkScheduled r v) rows)
    | _ => None
    end.

(** The whole scheduler section; [None] stands for a run stopped by an
    error. *)
Definition final_schedule (i : inputs) : option (list scheduled) :=
  let prioritized_list := prioritized_list (hotlist i) (svi_database i) in
  let num_meetings := List.length prioritized_list in
  let dates := final_meeting_dates num_meetings (today (Sys_Date i))
                                   (do_not_schedule_dates i) in
  mutate_meeting_date prioritized_list (subset_at dates (one_to num_meetings)).

(** Column accessors on the finished schedule. *)
Definition sample_of (e : scheduled) : sample := c_sample (p_row (s_row e)).
Definition rank_of (e : scheduled) : nat := priority_rank (s_row e).

(** ** The scheduler on the table as the spreadsheet delivers it *)

(** One row of [svi.database] restricted to the columns the scheduler
    selects, [Date Received] still as read from the spreadsheet. *)
Record database_row : Type := mkDatabaseRow {
  db_Sample_ID : string;
  db_proband : option Z;
  db_Date_Received : Calendar.received;
  db_Identifier : identifier;
  db_report : Z
}.

(** What a run reads, with the database as delivered. *)
Record run : Type := mkRun {
  run_database : list database_row;
  run_hotlist : list string;
  run_canceled_dates : list Z;
  run_holidays : list Z;
  run_Sys_Date : Z
}.

(** [filter(proband == 1, report == 0)]. *)
Definition eligible_row (r : database_row) : bool :=
  match db_proband r with
  | Some p => (p =? 1) && (db_report r =? 0)
  | None => false
  end.

Definition scheduler_frame (db : list database_row) : list database_row :=
  filter eligible_row db.

(** First [mutate]: [Date Received] is overwritten with [as.Date] of it,
    and the two keys are derived (the year from the new column). *)
Definition add_keys_row (r : database_row) : sample * option Z * option N :=
  let d := Calendar.as_Date (db_Date_Received r) in
  (mkSample (db_Sample_ID r) (db_proband r) d (db_Identifier r) (db_report r),
   option_map Calendar.year d,
   option_map Str.as_numeric (Str.str_extract_digits (db_Sample_ID r))).

Definition classify_database_row (hot : list string) (r : database_row)
    : classified :=
  let '(r', y, n) := add_keys_row r in
  mkClassified r' y n (priority_level_of hot (Sample_ID r') (Identifier r') y).

Definition prioritized_rows (hot : list string) (db : list database_row)
    : list prioritized :=
  add_rank (arrange (map (classify_database_row hot) (scheduler_frame db))).

(** The whole scheduler section on the table as delivered. *)
Definition run_schedule (x : run) : option (list scheduled) :=
  let prioritized_list := prioritized_rows (run_hotlist x) (run_database x) in
  let num_meetings := List.length prioritized_list in
  let dates := final_meeting_dates num_meetings (today (run_Sys_Date x))
                                   (run_canceled_dates x ++ run_holidays x) in
  mutate_meeting_date prioritized_list (subset_at dates (one_to num_meetings)).

(** A delivered row with its date turned into a calendar date, and a run
    with every row so turned. *)
Definition with_calendar_date (r : database_row) : sample :=
  mkSample (db_Sample_ID r) (db_proband r)
           (Calendar.as_Date (db_Date_Received r))
           (db_Identifier r) (db_report r).

Definition inputs_of_run (x : run) : inputs :=
  mkInputs (map with_calendar_date (run_database x)) (run_hotlist x)
           (run_canceled_dates x) (run_holidays x) (run_Sys_Date x).

(** ** Building the database columns the scheduler reads *)

Module Ingest.

(** The next four characters, when all four are digits. *)
Definition four_digits (s : string) : option string :=
  match s with
  | String a (String b (String c (String d _))) =>
      if Str.is_digit a && Str.is_digit b && Str.is_digit c && Str.is_digit d
      then Some (String a (String b (String c (String d EmptyString))))
      else None
  | _ => None
  end.

(** [str_extract(s, "\\d{4}")]: the leftmost four digits in a row, [NA]
    when there are none. *)
Fixpoint str_extract_d4 (s : string) : option string :=
  match s with
  | EmptyString => None
  | String _ s' =>
      match four_digits s with
      | Some d => Some d
      | None => str_extract_d4 s'
      end
  end.

(** Four digits right after [SVI-] or [SVI_] at the head of [s]. *)
Definition svi_id_here (s : string) : option string :=
  match s with
  | String "S" (String "V" (String "I" (String sep rest))) =>
      if Ascii.eqb sep "-" || Ascii.eqb sep "_" then four_digits rest else None
  | _ => None
  end.

(** [str_extract_all(s, "(?<=SVI[-_])\\d{4}")]: every run of four digits
    that directly follows [SVI-] or [SVI_], left to right.  Two such runs
    never overlap (the character before a run is a separator, not a digit),
    so looking at every position finds what the search that resumes after
    each match finds. *)
Fixpoint str_extract_all_svi (s : string) : list string :=
  match s with
  | EmptyString => []
  | String _ s' =>
      match svi_id_here s with
      | Some d => d :: str_extract_all_svi s'
      | None => str_extract_all_svi s'
      end
  end.

(** [unique]: first occurrences, in order. *)
Fixpoint unique_from (seen : list string) (l : list string) : list string :=
  match l with
  | [] => []
  | x :: l' =>
      if Str.in_chr x seen then unique_from seen l'
      else x :: unique_from (x :: seen) l'
  end.

Definition unique (l : list string) : list string := unique_from [] l.

(** [pptx_ids], from the lines of the presentation listing. *)
Definition pptx_ids (rclone_pptx : list string) : list string :=
  unique (flat_map str_extract_all_svi rclone_pptx).

(** [grepl("<suffix>$", s)] for a literal suffix. *)
Fixpoint ends_with (suffix s : string) : bool :=
  match s with
  | EmptyString => String.eqb suffix EmptyString
  | String _ s' => String.eqb suffix s || ends_with suffix s'
  end.

(** The [proband] column from the fill colour of the identifier cell: blue
    is a proband, orange is not, anything else is [NA]. *)
Definition proband_of_fill_color (fill_color : option string) : option Z :=
  match fill_color with
  | Some c =>
      if String.eqb c "FF00B0F0" then Some 1
      else if String.eqb c "FFFF9900" then Some 0
      else None
  | None => None
  end.

(** The [Identifier] column. *)
Definition Identifier_of (Sample_ID : string) : identifier :=
  if ends_with "_UIC" Sample_ID then UIC
  else if ends_with "_UDD" Sample_ID then UDD
  else Base.

(** [as.integer(ID %in% pptx_ids)]; a missing [ID] is in no list. *)
Definition report_of (ID : option string) (ids : list string) : Z :=
  match ID with
  | Some d => if Str.in_chr d ids then 1 else 0
  | None => 0
  end.

(** A row of the accessioning sheet that carries a sample identifier, with
    the fill colour found for its identifier cell. *)
Record accession_row : Type := mkAccession {
  a_Sample_ID : string;
  a_fill_color : option string;
  a_Date_Received : option Z
}.

(** The scheduler's columns for such a row. *)
Definition scheduler_columns (rclone_pptx : list string) (a : accession_row)
    : sample :=
  mkSample (a_Sample_ID a)
           (proband_of_fill_color (a_fill_color a))
           (a_Date_Received a)
           (Identifier_of (a_Sample_ID a))
           (report_of (str_extract_d4 (a_Sample_ID a)) (pptx_ids rclone_pptx)).

End Ingest.

(** ** The dashboard: proband status chart *)

Module Dashboard.

(** A parsed row of the database file, with the columns the chart reads.
    Every value is text; a column absent from the header leaves the field
    undefined ([None]). *)
Record row : Type := mkRow {
  Identifier : option string;
  proband : option string;
  report : option string;
  geneyx_uploaded : option string;
  DataDate : option string
}.

(** [v === lit]. *)
Definition strict_eq (v : option string) (lit : string) : bool :=
  match v with
  | Some s => String.eqb s lit
  | None => false
  end.

(** [v || 'N/A']: undefined and the empty text are falsy. *)
Definition or_NA (v : option string) : string :=
  match v with
  | Some EmptyString => "N/A"
  | Some s => s
  | None => "N/A"
  end.

(** The counters kept per identifier. *)
Record counts : Type := mkCounts {
  total : Z;
  reported : Z;
  analyzed : Z
}.

(** The accumulator object: its own properties, in order of creation. *)
Definition groups : Type := list (string * counts).

(** Names every object inherits; [acc[name]] is a truthy inherited value
    for them, so the reducer never creates an own property of that name
    and the counters it bumps are not the accumulator's. *)
Definition inherited (name : string) : bool :=
  existsb (String.eqb name)
    [ "constructor"; "hasOwnProperty"; "isPrototypeOf"; "propertyIsEnumerable";
      "toLocaleString"; "toString"; "valueOf"; "__proto__";
      "__defineGetter__"; "__defineSetter__"; "__lookupGetter__";
      "__lookupSetter__" ].

Fixpoint get (acc : groups) (name : string) : option counts :=
  match acc with
  | [] => None
  | (k, c) :: acc' => if String.eqb k name then Some c else get acc' name
  end.

(** Assignment to a field of [acc[name]]: the entry changes in place. *)
Fixpoint update (acc : groups) (name : string) (f : counts -> counts) : groups :=
  match acc with
  | [] => []
  | (k, c) :: acc' =>
      if String.eqb k name then (k, f c) :: acc'
      else (k, c) :: update acc' name f
  end.

Definition add_total (c : counts) : counts :=
  mkCounts (total c + 1) (reported c) (analyzed c).

Definition add_reported (c : counts) : counts :=
  mkCounts (total c) (reported c + 1) (analyzed c + 1).

Definition add_analyzed (c : counts) : counts :=
  mkCounts (total c) (reported c) (analyzed c + 1).

(** The callback of [probandData.reduce]. *)
Definition reducer (acc : groups) (r : row) : groups :=
  let identifier := or_NA (Identifier r) in
  if String.eqb identifier "N/A" then acc
  else if inherited identifier then acc
  else
    let acc1 := match get acc identifier with
                | None => acc ++ [(identifier, mkCounts 0 0 0)]
                | Some _ => acc
                end in
    let acc2 := update acc1 identifier add_total in
    if strict_eq (report r) "1" then update acc2 identifier add_reported
    else if strict_eq (geneyx_uploaded r) "1" then update acc2 identifier add_analyzed
    else acc2.

(** A property name that is an array index: a canonical decimal numeral
    below 2^32 - 1. *)
Definition array_index (name : string) : option N :=
  match list_ascii_of_string name with
  | [] => None
  | c :: cs =>
      if forallb Str.is_digit (c :: cs)
         && (negb (Ascii.eqb c "0") || match cs with [] => true | _ => false end)
      then let n := Str.as_numeric (c :: cs) in
           if (n <? 4294967295)%N then Some n else None
      else None
  end.

Definition index_of (e : string * counts) : N :=
  match array_index (fst e) with Some n => n | None => 0%N end.

Definition is_index (e : string * counts) : bool :=
  match array_index (fst e) with Some _ => true | None => false end.

Fixpoint insert_by_index (e : string * counts) (l : groups) : groups :=
  match l with
  | [] => [e]
  | e' :: l' =>
      if (index_of e <=? index_of e')%N then e :: l
      else e' :: insert_by_index e l'
  end.

Fixpoint sort_by_index (l : groups) : groups :=
  match l with
  | [] => []
  | e :: l' => insert_by_index e (sort_by_index l')
  end.

(** [Object.entries]: array-index names first, in ascending numeric order,
    then the other names in order of creation. *)
Definition entries (acc : groups) : groups :=
  sort_by_index (filter is_index acc)
  ++ filter (fun e => negb (is_index e)) acc.

(** One bar of the stacked chart. *)
Record bar : Type := mkBar {
  name : string;
  Reported : Z;
  Analyzed : Z;
  Pending : Z
}.

Definition probandData (data : list row) : list row :=
  filter (fun r => strict_eq (proband r) "1") data.

Definition groupedData (data : list row) : groups :=
  fold_left reducer (probandData data) [].

Definition chartData (data : list row) : list bar :=
  match data with
  | [] => []
  | _ =>
      map (fun e => mkBar (fst e) (reported (snd e))
                          (analyzed (snd e) - reported (snd e))
                          (total (snd e) - analyzed (snd e)))
          (entries (groupedData data))
  end.

(** The four summary cards. *)
Record stats : Type := mkStats {
  totalSamples : Z;
  probandCount : Z;
  reportedCount : Z;
  processedCount : Z
}.

Definition count (f : row -> bool) (data : list row) : Z :=
  Z.of_nat (List.length (filter f data)).

Definition summaryStats (data : list row) : stats :=
  match data with
  | [] => mkStats 0 0 0 0
  | _ =>
      mkStats (Z.of_nat (List.length data))
              (count (fun d => strict_eq (proband d) "1") data)
              (count (fun d => strict_eq (report d) "1") data)
              (count (fun d => negb (strict_eq (DataDate d) "N/A")) data)
  end.

(** The rows a bar stands for, all bars together. *)
Definition bar_total (b : bar) : Z := Reported b + Analyzed b + Pending b.

Definition sum (l : list Z) : Z := fold_right Z.add 0 l.

(** The name a proband row is counted under, if it is counted at all. *)
Definition counted_under (r : row) : option string :=
  let identifier := or_NA (Identifier r) in
  if String.eqb identifier "N/A" || inherited identifier then None
  else Some identifier.

(** The proband rows counted under [k], and those among them that are
    reported, or uploaded for analysis but not reported. *)
Definition rows_of (k : string) (data : list row) : list row :=
  filter (fun r => match counted_under r with
                   | Some k' => String.eqb k' k
                   | None => false
                   end) (probandData data).

Definition reported_rows (k : string) (data : list row) : list row :=
  filter (fun r => strict_eq (report r) "1") (rows_of k data).

Definition analyzed_only_rows (k : string) (data : list row) : list row :=
  filter (fun r => negb (strict_eq (report r) "1") && strict_eq (geneyx_uploaded r) "1")
         (rows_of k data).

Definition pending_rows (k : string) (data : list row) : list row :=
  filter (fun r => negb (strict_eq (report r) "1") && negb (strict_eq (geneyx_uploaded r) "1"))
         (rows_of k data).

(** What one counted row adds to the counters of its name. *)
Definition bump (r : row) (c : counts) : counts :=
  let c1 := add_total c in
  if strict_eq (report r) "1" then add_reported c1
  else if strict_eq (geneyx_uploaded r) "1" then add_analyzed c1
  else c1.

Definition size (l : list row) : Z := Z.of_nat (List.length l).

End Dashboard.

(** ** The dashboard: reading the schedule file *)

(** Text handled by the dashboard is the list of its code units, taken
    below 256. *)
Module Js.

(** White space and line terminators, as [trim] sees them. *)
Definition is_space (c : ascii) : bool :=
  let n := nat_of_ascii c in
  ((9 <=? n) && (n <=? 13) || (n =? 32) || (n =? 160))%nat.

Fixpoint trimStart (s : string) : string :=
  match s with
  | EmptyString => EmptyString
  | String c s' => if is_space c then trimStart s' else s
  end.

Fixpoint trimEnd (s : string) : string :=
  match s with
  | EmptyString => EmptyString
  | String c s' =>
      match trimEnd s' with
      | EmptyString => if is_space c then EmptyString else String c EmptyString
      | t => String c t
      end
  end.

Definition trim (s : string) : string := trimEnd (trimStart s).

(** [s.split(sep)] for a separator of one character: the pieces between
    separators, at least one. *)
Fixpoint split (sep : ascii) (s : string) : list string :=
  match s with
  | EmptyString => [EmptyString]
  | String c s' =>
      if Ascii.eqb c sep then EmptyString :: split sep s'
      else match split sep s' with
           | [] => [String c EmptyString]
           | w :: ws => String c w :: ws
           end
  end.

(** The double quote character. *)
Definition dquote : ascii := ascii_of_nat 34.

(** [s.replace] with the global pattern for a double quote and the empty
    replacement: every double quote is dropped. *)
Fixpoint remove_quotes (s : string) : string :=
  match s with
  | EmptyString => EmptyString
  | String c s' =>
      if Ascii.eqb c dquote then remove_quotes s' else String c (remove_quotes s')
  end.

(** [l.indexOf(x)]; [None] stands for -1. *)
Fixpoint indexOf (x : string) (l : list string) : option nat :=
  match l with
  | [] => None
  | y :: l' => if String.eqb y x then Some O else option_map S (indexOf x l')
  end.

(** Truthiness of a value that is text or undefined. *)
Definition truthy (v : option string) : bool :=
  match v with
  | Some EmptyString => false
  | Some _ => true
  | None => false
  end.

(** One parsed line of the schedule. *)
Record item : Type := mkItem {
  sampleId : string;
  meetingDate : option string
}.

Definition parse_row (sampleIdIndex meetingDateIndex : nat) (row : string) : item :=
  let values := split "," row in
  mkItem (if truthy (nth_error values sampleIdIndex)
          then match nth_error values sampleIdIndex with
               | Some v => remove_quotes v
               | None => EmptyString
               end
          else EmptyString)
         (nth_error values meetingDateIndex).

Definition keep (it : item) : bool :=
  truthy (Some (sampleId it)) && truthy (meetingDate it).

Definition newline : ascii := ascii_of_nat 10.

Definition parseScheduleCsv (csvString : string) : list item :=
  let rows := split newline (trim csvString) in
  if (List.length rows <? 2)%nat then []
  else
    let header := map (fun h => remove_quotes (trim h))
                      (split "," (hd EmptyString rows)) in
    match indexOf "Sample ID" header, indexOf "meeting_date" header with
    | Some sampleIdIndex, Some meetingDateIndex =>
        filter keep (map (parse_row sampleIdIndex meetingDateIndex) (tl rows))
    | _, _ => []
    end.

(** Pieces put together with a separator between them. *)
Fixpoint join (sep : ascii) (l : list string) : string :=
  match l with
  | [] => EmptyString
  | [w] => w
  | w :: l' => (w ++ String sep (join sep l'))%string
  end.

(** The character [c] does not occur in [s]. *)
Definition free_of (c : ascii) (s : string) : Prop :=
  Forall (fun x => x <> c) (list_ascii_of_string s).

(** A table written as text: one line per row, header first, fields
    separated by commas. *)
Definition csv_text (header : list string) (rows : list (list string)) : string :=
  join newline (map (join ",") (header :: rows)).

(** Fields that can be written that way: at least one per row, none with a
    comma or a line break. *)
Definition plain_row (fields : list string) : Prop :=
  fields <> [] /\ Forall (fun f => free_of "," f /\ free_of newline f) fields.

(** The same, as a test. *)
Definition free_ofb (c : ascii) (s : string) : bool :=
  forallb (fun x => negb (Ascii.eqb x c)) (list_ascii_of_string s).

Definition plain_rowb (fields : list string) : bool :=
  match fields with
  | [] => false
  | _ => forallb (fun f => free_ofb "," f && free_ofb newline f) fields
  end.

End Js.

(** ** Vocabulary of the statements *)

(** A day on which meetings are held. *)
Definition is_meeting_day (d : Z) : Prop :=
  Calendar.wday d = Calendar.Tuesday \/ Calendar.wday d = Calendar.Friday.

(** What the sort needs from a three-way comparison. *)
Record total_cmp {A : Type} (c : A -> A -> comparison) : Prop := {
  cmp_eq : forall x y, c x y = Eq <-> x = y;
  cmp_opp : forall x y, c y x = CompOpp (c x y);
  cmp_lt_trans : forall x y z, c x y = Lt -> c y z = Lt -> c x z = Lt
}.

(** Ascending order on rows, read off the three sort columns. *)
Definition row_le (a b : classified) : Prop := key_leb (key_of a) (key_of b) = true.

Definition has_key (k : sort_key) (c : classified) : bool := key_eqb k (key_of c).

(** Rows that tie with key [k] on all three sort columns. *)
Definition tied_at (k : sort_key) (l : list classified) : list classified :=
  filter (has_key k) l.

(** What the positional assignment hands to the first [n] rows when the
    filtered calendar is [dates]: the date at the row's position, [NA] past
    the end. *)
Definition assigned_dates (n : nat) (dates : list Z) : list (option Z) :=
  map (nth_error dates) (seq 0 n).

(** The candidates of a run that fall in the exclusion list. *)
Definition excluded_candidates (i : inputs) : list Z :=
  filter (fun d => Str.in_dates d (do_not_schedule_dates i))
         (potential_dates (List.length (scheduler (svi_database i)))
                          (today (Sys_Date i))).

(** Column order with missing values last, spelt out. *)
Definition na_lt {A : Type} (lt : A -> A -> Prop) (x y : option A) : Prop :=
  match x, y with
  | Some a, Some b => lt a b
  | Some _, None => True
  | None, _ => False
  end.

Definition na_le {A : Type} (le : A -> A -> Prop) (x y : option A) : Prop :=
  match x, y with
  | Some a, Some b => le a b
  | _, None => True
  | None, Some _ => False
  end.

(** Ascending on (tier, date received, identifier number). *)
Definition composite_le (a b : classified) : Prop :=
  priority_level a < priority_level b \/
  (priority_level a = priority_level b /\
   (na_lt Z.lt (Date_Received (c_sample a)) (Date_Received (c_sample b)) \/
    (Date_Received (c_sample a) = Date_Received (c_sample b) /\
     na_le N.le (sample_id_num a) (sample_id_num b)))).

(** The classifier's rules as the specification words them, for a record
    [r] with hot list [hot], tier [tier] and label [reason]. *)
Definition first_match_rules (hot : list string) (r : sample) (tier : Z)
    (reason : string) : Prop :=
  let y := option_map Calendar.year (Date_Received r) in
  (In (Sample_ID r) hot -> tier = 0 /\ reason = "CRITICAL: Hot List") /\
  (~ In (Sample_ID r) hot -> Identifier r = UIC ->
     tier = 1 /\ reason = "Highest Priority: UIC") /\
  (~ In (Sample_ID r) hot -> Identifier r = UDD ->
     forall k, 0 <= k <= 3 -> y = Some (referenceYear - k) ->
       tier = 2 + k /\
       reason = ("UDD " ++ Str.string_of_Z (referenceYear - k))%string) /\
  (~ In (Sample_ID r) hot -> Identifier r = Base ->
     forall k, 0 <= k <= 3 -> y = Some (referenceYear - k) ->
       tier = 102 + k /\
       reason = ("Base " ++ Str.string_of_Z (referenceYear - k))%string) /\
  (~ In (Sample_ID r) hot -> Identifier r <> UIC ->
     (forall k, 0 <= k <= 3 -> y <> Some (referenceYear - k)) ->
       tier = 999 /\
       reason = Str.paste (identifier_label (Identifier r)) y).

(** The calendar left to a run after the exclusion filter. *)
Definition run_dates (i : inputs) : list Z :=
  final_meeting_dates (List.length (scheduler (svi_database i)))
                      (today (Sys_Date i)) (do_not_schedule_dates i).

(** ** Concrete runs *)

(** A small database: four eligible records, one non-proband, one with
    no proband colour, one already reported. *)
Definition example_database : list sample :=
  [ mkSample "MCW_SVI_0007_UDD" (Some 1) (Some 20089) UDD 0;
    mkSample "MCW_SVI_0003" (Some 1) (Some 19000) Base 0;
    mkSample "MCW_SVI_0001_UIC" (Some 1) (Some 19500) UIC 0;
    mkSample "MCW_SVI_0002_UIC" (Some 0) (Some 19500) UIC 0;
    mkSample "MCW_SVI_0009" None (Some 19500) Base 0;
    mkSample "MCW_SVI_0004" (Some 1) None Base 0;
    mkSample "MCW_SVI_0005" (Some 1) (Some 20000) Base 1 ].

(** Run of 2025-11-03 (day 20395); the meetings of 2025-11-04 and
    2025-11-11 are cancelled. *)
Definition example_run : inputs :=
  mkInputs example_database ["MCW_SVI_0003"] [20396; 20403]
           [20447; 20454; 20546] 20395.

(** Other records and another hot list, but as many eligible records, the
    same run date and the same excluded dates (listed differently). *)
Definition reshuffled_run : inputs :=
  mkInputs [ mkSample "MCW_SVI_0100" (Some 1) (Some 19800) Base 0;
             mkSample "MCW_SVI_0101_UDD" (Some 1) (Some 19100) UDD 0;
             mkSample "MCW_SVI_0102_UDD" (Some 1) (Some 20100) UDD 0;
             mkSample "MCW_SVI_0103_UIC" (Some 1) (Some 20200) UIC 0 ]
           [] [20403; 20546] [20396; 20447; 20454; 20396] 20395.

(** A run with nothing to schedule. *)
Definition idle_run : inputs :=
  mkInputs [ mkSample "MCW_SVI_0002_UIC" (Some 0) (Some 19500) UIC 0;
             mkSample "MCW_SVI_0005" (Some 1) (Some 20000) Base 1 ]
           [] [20396] [20447] 20395.

(** Run of 2025-11-03 with one eligible record while every meeting from
    2025-11-04 to 2026-03-24 is cancelled: all 41 candidates are excluded. *)
Definition suspended_run : inputs :=
  mkInputs [ mkSample "MCW_SVI_0007_UDD" (Some 1) (Some 20089) UDD 0 ]
           []
           [20396; 20399; 20403; 20406; 20410; 20413; 20417; 20420; 20424;
            20427; 20431; 20434; 20438; 20441; 20445; 20448; 20452; 20455;
            20459; 20462; 20466; 20469; 20473; 20476; 20480; 20483; 20487;
            20490; 20494; 20497; 20501; 20504; 20508; 20511; 20515; 20518;
            20522; 20525; 20529; 20532; 20536]
           [] 20395.

(** Run of 2025-11-03 with one eligible record received on 2025-01-01 at
    13:30 UTC. *)
Definition afternoon_run : run :=
  mkRun [ mkDatabaseRow "MCW_SVI_0007_UDD" (Some 1)
                        (Calendar.POSIXct 1735738200) UDD 0 ]
        [] [] [] 20395.

(** Two eligible records of the same class and date whose numbers are
    2^53 + 1 and 2^53, in that order. *)
Definition large_numbers_run : inputs :=
  mkInputs [ mkSample "MCW_SVI_9007199254740993" (Some 1) (Some 20089) Base 0;
             mkSample "MCW_SVI_9007199254740992" (Some 1) (Some 20089) Base 0 ]
           [] [] [] 20395.

(** The run [i] on another database, everything else the same. *)
Definition with_database (i : inputs) (db : list sample) : inputs :=
  mkInputs db (hotlist i) (user_canceled_dates i) (us_holidays i) (Sys_Date i).

(** The run [i] with further cancelled meetings. *)
Definition with_more_canceled (i : inputs) (more : list Z) : inputs :=
  mkInputs (svi_database i) (hotlist i) (more ++ user_canceled_dates i)
           (us_holidays i) (Sys_Date i).

(** The eligible records of [example_database], listed the other way
    round. *)
Definition example_database_reversed : list sample :=
  [ mkSample "MCW_SVI_0004" (Some 1) None Base 0;
    mkSample "MCW_SVI_0001_UIC" (Some 1) (Some 19500) UIC 0;
    mkSample "MCW_SVI_0003" (Some 1) (Some 19000) Base 0;
    mkSample "MCW_SVI_0007_UDD" (Some 1) (Some 20089) UDD 0 ].

(** A database whose eligible records come in priority order already. *)
Definition ordered_run : inputs :=
  mkInputs [ mkSample "MCW_SVI_0001_UIC" (Some 1) (Some 19500) UIC 0;
             mkSample "MCW_SVI_0002_UIC" (Some 0) (Some 19500) UIC 0;
             mkSample "MCW_SVI_0007_UDD" (Some 1) (Some 20089) UDD 0;
             mkSample "MCW_SVI_0004" (Some 1) None Base 0 ]
           [] [20396] [] 20395.

(** One step of reading a numeral: the digit [c] appended to [acc]. *)
Definition numeric_step (acc : N) (c : ascii) : N :=
  (10 * acc + Str.digit_value c)%N.

(** A decimal numeral, and the same with leading zeros. *)
Definition decimal (n : N) : string := NilEmpty.string_of_uint (N.to_uint n).

Fixpoint zeros (k : nat) : string :=
  match k with
  | O => EmptyString
  | S k' => String "0" (zeros k')
  end.

(** No character of [s] is a digit. *)
Definition digit_free (s : string) : Prop :=
  Forall (fun c => Str.is_digit c = false) (list_ascii_of_string s).

(** [s] does not begin with a digit. *)
Definition no_leading_digit (s : string) : Prop :=
  match s with
  | EmptyString => True
  | String c _ => Str.is_digit c = false
  end.

(** [s] is made of four digits. *)
Definition is_four_digits (s : string) : Prop :=
  String.length s = 4%nat /\
  Forall (fun c => Str.is_digit c = true) (list_ascii_of_string s).

(** [part] occurs in [s]. *)
Definition occurs_in (part s : string) : Prop :=
  exists pre post, s = (pre ++ part ++ post)%string.

(** The header of the schedule file and two of its lines, the second with
    no meeting date. *)
Definition schedule_header : list string :=
  [ "Sample ID"; "proband"; "Date Received"; "Identifier"; "report";
    "year_received"; "sample_id_num"; "priority_level"; "priority_rank";
    "reason_for_priority"; "meeting_date" ].

Definition schedule_lines : list (list string) :=
  [ [ "MCW_SVI_0003"; "1"; "2022-01-08"; "Base"; "0"; "2022"; "3"; "0"; "1";
      "CRITICAL: Hot List"; "2025-11-07" ];
    [ "MCW_SVI_0001_UIC"; "1"; "2023-05-23"; "UIC"; "0"; "2023"; "1"; "1"; "2";
      "Highest Priority: UIC"; "" ] ].

(** Rows of the database file as the chart sees them. *)
Definition chart_rows : list Dashboard.row :=
  [ Dashboard.mkRow (Some "Base") (Some "1") (Some "1") (Some "0") (Some "N/A");
    Dashboard.mkRow (Some "UIC") (Some "1") (Some "0") (Some "1") (Some "N/A");
    Dashboard.mkRow (Some "Base") (Some "1") (Some "0") (Some "0") (Some "N/A");
    Dashboard.mkRow (Some "UDD") (Some "0") (Some "1") (Some "1") (Some "N/A");
    Dashboard.mkRow (Some "N/A") (Some "1") (Some "0") (Some "0") (Some "N/A");
    Dashboard.mkRow (Some "constructor") (Some "1") (Some "0") (Some "0") (Some "N/A");
    Dashboard.mkRow (Some "10") (Some "1") (Some "1") (Some "1") (Some "N/A");
    Dashboard.mkRow (Some "9") (Some "1") (Some "0") (Some "0") (Some "N/A") ].

(** ** Sanity checks on concrete values *)

Example year_2025_first_day : Calendar.year 20089 = 2025.
Proof. reflexivity. Qed.

Example year_2024_last_day : Calendar.year 20088 = 2024.
Proof. reflexivity. Qed.

Example year_window_lower_edge :
  (Calendar.year 18993, Calendar.year 18992) = (2022, 2021).
Proof. reflexivity. Qed.

Example wday_2025_06_17_is_tuesday : Calendar.wday 20256 = 3.
Proof. reflexivity. Qed.

Example extract_first_digit_run :
  option_map Str.as_numeric (Str.str_extract_digits "MCW_SVI_0123_UDD") = Some 123%N.
Proof. reflexivity. Qed.

Example doubles_round_to_even :
  map Str.to_double [ 9007199254740991; 9007199254740992; 9007199254740993;
                      9007199254740994; 9007199254740995 ]%N
  = [ 9007199254740991; 9007199254740992; 9007199254740992;
      9007199254740994; 9007199254740996 ]%N.
Proof. reflexivity. Qed.

Example doubles_far_above_2_53 :
  (Str.to_double 100000000000000000000000 = 99999999999999991611392 /\
   Str.to_double 18446744073709551617 = 18446744073709551616 /\
   Str.to_double (N.shiftl 1 1024 - 1) = Str.double_Inf)%N.
Proof. repeat split; vm_compute; reflexivity. Qed.

Example large_numbers_tie :
  option_map (map (fun e => (Sample_ID (sample_of e),
                             sample_id_num (p_row (s_row e)), rank_of e)))
             (final_schedule large_numbers_run)
  = Some [ ("MCW_SVI_9007199254740993", Some 9007199254740992%N, 1%nat);
           ("MCW_SVI_9007199254740992", Some 9007199254740992%N, 2%nat) ].
Proof. vm_compute. reflexivity. Qed.

Example as_Date_drops_the_time_of_day :
  Calendar.as_Date (Calendar.POSIXct 1735738200) = Some 20089.
Proof. reflexivity. Qed.

Example paste_udd_2024 : Str.paste "UDD" (Some 2024) = "UDD 2024".
Proof. reflexivity. Qed.

(** Same tier and date: numbers ascending, then the identifiers without a
    number in the order they came in. *)
Example arrange_numbers_then_missing :
  map (fun c => Sample_ID (c_sample c))
      (arrange (map (classify_row [])
                    [ mkSample "MCW_SVI_b" (Some 1) (Some 20000) Base 0;
                      mkSample "MCW_SVI_12" (Some 1) (Some 20000) Base 0;
                      mkSample "MCW_SVI_a" (Some 1) (Some 20000) Base 0;
                      mkSample "MCW_SVI_5" (Some 1) (Some 20000) Base 0 ]))
  = ["MCW_SVI_5"; "MCW_SVI_12"; "MCW_SVI_b"; "MCW_SVI_a"].
Proof. reflexivity. Qed.

Example example_run_ranks_and_dates :
  option_map (map (fun e => (Sample_ID (sample_of e), rank_of e, meeting_date e)))
             (final_schedule example_run)
  = Some [ ("MCW_SVI_0003", 1%nat, Some 20399);
           ("MCW_SVI_0001_UIC", 2%nat, Some 20406);
           ("MCW_SVI_0007_UDD", 3%nat, Some 20410);
           ("MCW_SVI_0004", 4%nat, Some 20413) ].
Proof. reflexivity. Qed.

Example chart_of_chart_rows :
  Dashboard.chartData chart_rows
  = [ Dashboard.mkBar "9" 0 0 1; Dashboard.mkBar "10" 1 0 0;
      Dashboard.mkBar "Base" 1 0 1; Dashboard.mkBar "UIC" 0 1 0 ].
Proof. reflexivity. Qed.

Example schedule_file_read_back :
  Js.parseScheduleCsv (Js.csv_text schedule_header schedule_lines)
  = [ Js.mkItem "MCW_SVI_0003" (Some "2025-11-07") ].
Proof. reflexivity. Qed.

Example report_ids_of_a_listing :
  Ingest.pptx_ids [ "  123456 SVI-0123 review.pptx";
                    "   98765 old/SVI_0042_final_SVI-0123.pptx";
                    "     111 SVI 0007.pptx" ]
  = [ "0123"; "0042" ].
Proof. reflexivity. Qed.

Example identifier_classes :
  map Ingest.Identifier_of [ "MCW_SVI_0001_UIC"; "MCW_SVI_0007_UDD";
                             "MCW_SVI_0003"; "MCW_SVI_0008_UDD_2" ]
  = [ UIC; UDD; Base; Base ].
Proof. reflexivity. Qed.

(** * Properties *)

(** ** Calendar *)

Ltac calendar_arith :=
  unfold is_meeting_day, first_meeting, days_to_tuesday, days_to_friday,
    days_to, next_date, today, Calendar.wday, Calendar.Tuesday,
    Calendar.Friday in *;
  repeat match goal with
         | |- context [?a =? ?b] => destruct (Z.eqb_spec a b)
         | H : context [?a =? ?b] |- _ => destruct (Z.eqb_spec a b)
         end;
  Z.div_mod_to_equations; lia.

Lemma wday_range (d : Z) : 1 <= Calendar.wday d <= 7.
Proof. calendar_arith. Qed.

Lemma first_meeting_after (t : Z) : t < first_meeting t <= t + 4.
Proof. calendar_arith. Qed.

Lemma first_meeting_is_meeting_day (t : Z) : is_meeting_day (first_meeting t).
Proof. calendar_arith. Qed.

Lemma first_meeting_earliest (t d : Z) :
  t < d < first_meeting t -> ~ is_meeting_day d.
Proof. intros H Hd. calendar_arith. Qed.

Lemma next_date_cadence (d : Z) :
  is_meeting_day d ->
  (Calendar.wday d = Calendar.Tuesday /\ next_date d = d + 3) \/
  (Calendar.wday d = Calendar.Friday /\ next_date d = d + 4).
Proof. intros H. calendar_arith. Qed.

Lemma next_date_is_meeting_day (d : Z) :
  is_meeting_day d -> is_meeting_day (next_date d).
Proof. intros H. calendar_arith. Qed.

Lemma next_date_later (d : Z) : d < next_date d.
Proof. calendar_arith. Qed.

(** *** The generated sequence *)

Lemma generate_dates_length (n : nat) (c : Z) :
  List.length (generate_dates n c) = n.
Proof. revert c. induction n as [|n IH]; intros c; simpl; [|rewrite IH]; reflexivity. Qed.

Lemma generate_dates_meeting_days (n : nat) (c : Z) :
  is_meeting_day c -> Forall is_meeting_day (generate_dates n c).
Proof.
  revert c. induction n as [|n IH]; intros c Hc; simpl; constructor.
  - exact Hc.
  - apply IH, next_date_is_meeting_day, Hc.
Qed.

Lemma generate_dates_lower_bound (n : nat) (c : Z) :
  Forall (fun d => c <= d) (generate_dates n c).
Proof.
  revert c. induction n as [|n IH]; intros c; simpl; constructor.
  - lia.
  - eapply Forall_impl; [|apply IH].
    intros d Hd. pose proof (next_date_later c). simpl in Hd. lia.
Qed.

Lemma generate_dates_increasing (n : nat) (c : Z) :
  StronglySorted Z.lt (generate_dates n c).
Proof.
  revert c. induction n as [|n IH]; intros c; simpl; constructor.
  - apply IH.
  - eapply Forall_impl; [|apply generate_dates_lower_bound].
    intros d Hd. pose proof (next_date_later c). simpl in Hd. lia.
Qed.

Lemma generate_dates_step (n : nat) (c : Z) (k : nat) (d d' : Z) :
  nth_error (generate_dates n c) k = Some d ->
  nth_error (generate_dates n c) (S k) = Some d' ->
  d' = next_date d.
Proof.
  revert c k. induction n as [|n IH]; intros c k H1 H2.
  - destruct k; discriminate.
  - destruct k as [|k].
    + simpl in H1. injection H1 as <-.
      destruct n; simpl in H2; [discriminate|]. injection H2 as <-. reflexivity.
    + simpl in H1, H2. eapply IH; eassumption.
Qed.

(** *** Lists sorted by [<] *)

Lemma sorted_filter (f : Z -> bool) (l : list Z) :
  StronglySorted Z.lt l -> StronglySorted Z.lt (filter f l).
Proof.
  induction 1 as [|a l Hs IH Ha]; simpl; [constructor|].
  destruct (f a); [constructor|]; auto.
  rewrite Forall_forall in *. intros x Hx. apply Ha.
  apply filter_In in Hx. tauto.
Qed.

Lemma sorted_nth_lt (l : list Z) :
  StronglySorted Z.lt l ->
  forall j k a b, nth_error l j = Some a -> nth_error l k = Some b ->
                  (j < k)%nat -> a < b.
Proof.
  induction 1 as [|x l Hs IH Hx]; intros j k a b Hj Hk Hlt.
  - destruct j; discriminate.
  - destruct k as [|k]; [lia|]. simpl in Hk.
    destruct j as [|j]; simpl in Hj.
    + injection Hj as <-. rewrite Forall_forall in Hx.
      apply Hx. eapply nth_error_In; eassumption.
    + eapply IH; [eassumption..|lia].
Qed.

(** *** The filtered sequence *)

Lemma in_dates_In (d : Z) (skip : list Z) :
  Str.in_dates d skip = true <-> In d skip.
Proof.
  unfold Str.in_dates. rewrite existsb_exists. split.
  - intros (x & Hx & Heq). apply Z.eqb_eq in Heq. subst. exact Hx.
  - intros H. exists d. split; [exact H|apply Z.eqb_refl].
Qed.

Lemma potential_dates_length (n : nat) (t : Z) :
  List.length (potential_dates n t) = (n + 40)%nat.
Proof. apply generate_dates_length. Qed.

Lemma final_meeting_dates_increasing (n : nat) (t : Z) (skip : list Z) :
  StronglySorted Z.lt (final_meeting_dates n t skip).
Proof. apply sorted_filter, generate_dates_increasing. Qed.

Lemma final_meeting_dates_valid (n : nat) (t : Z) (skip : list Z) (d : Z) :
  In d (final_meeting_dates n t skip) ->
  is_meeting_day d /\ ~ In d skip /\ t < d.
Proof.
  unfold final_meeting_dates, potential_dates. intros H.
  apply filter_In in H. destruct H as [Hin Hf].
  split; [|split].
  - pose proof (generate_dates_meeting_days (n + 40) _ (first_meeting_is_meeting_day t)) as HF.
    rewrite Forall_forall in HF. auto.
  - rewrite <- in_dates_In. destruct (Str.in_dates d skip); [discriminate|congruence].
  - pose proof (generate_dates_lower_bound (n + 40) (first_meeting t)) as HF.
    rewrite Forall_forall in HF. apply HF in Hin.
    pose proof (first_meeting_after t). lia.
Qed.

Lemma filter_split_length {A : Type} (f : A -> bool) (l : list A) :
  (List.length (filter f l) + List.length (filter (fun x => negb (f x)) l)
   = List.length l)%nat.
Proof.
  induction l as [|a l IH]; simpl; [reflexivity|].
  destruct (f a); simpl; lia.
Qed.

Lemma filter_ext_on {A : Type} (f g : A -> bool) (l : list A) :
  (forall x, In x l -> f x = g x) -> filter f l = filter g l.
Proof.
  induction l as [|a l IH]; intros H; simpl; [reflexivity|].
  rewrite (H a (or_introl eq_refl)), IH; [reflexivity|].
  intros x Hx. apply H. right. exact Hx.
Qed.

(** ** Ordering *)

Lemma total_cmp_Z : total_cmp Z.compare.
Proof.
  split.
  - apply Z.compare_eq_iff.
  - intros x y. apply Z.compare_antisym.
  - intros x y z. rewrite !Z.compare_lt_iff. lia.
Qed.

Lemma total_cmp_N : total_cmp N.compare.
Proof.
  split.
  - apply N.compare_eq_iff.
  - intros x y. apply N.compare_antisym.
  - intros x y z. rewrite !N.compare_lt_iff. lia.
Qed.

Lemma total_cmp_na_last {A : Type} (c : A -> A -> comparison) :
  total_cmp c -> total_cmp (compare_na_last c).
Proof.
  intros [Heq Hopp Htr]. split.
  - intros [x|] [y|]; simpl; try (split; congruence).
    rewrite Heq. split; congruence.
  - intros [x|] [y|]; simpl; auto.
  - intros [x|] [y|] [z|]; simpl; try congruence. apply Htr.
Qed.

Lemma total_cmp_lex {A B : Type} (ca : A -> A -> comparison)
    (cb : B -> B -> comparison) :
  total_cmp ca -> total_cmp cb -> total_cmp (lex_compare ca cb).
Proof.
  intros [Ha Hoa Hta] [Hb Hob Htb]. split.
  - intros [x1 x2] [y1 y2]. unfold lex_compare. simpl.
    destruct (ca x1 y1) eqn:E.
    + apply Ha in E. subst. rewrite Hb. split; congruence.
    + split; [discriminate|]. intros H. injection H as H1 _.
      apply Ha in H1. congruence.
    + split; [discriminate|]. intros H. injection H as H1 _.
      apply Ha in H1. congruence.
  - intros [x1 x2] [y1 y2]. unfold lex_compare. simpl.
    rewrite (Hoa x1 y1). destruct (ca x1 y1); simpl; auto.
  - intros [x1 x2] [y1 y2] [z1 z2]. unfold lex_compare. simpl.
    destruct (ca x1 y1) eqn:E1; try discriminate;
      destruct (ca y1 z1) eqn:E2; try discriminate; intros H1 H2.
    + apply Ha in E1, E2. subst. assert (E : ca z1 z1 = Eq) by (apply Ha; reflexivity).
      rewrite E. eapply Htb; eassumption.
    + apply Ha in E1. subst. rewrite E2. reflexivity.
    + apply Ha in E2. subst. rewrite E1. reflexivity.
    + rewrite (Hta _ _ _ E1 E2). reflexivity.
Qed.

Lemma total_cmp_key : total_cmp key_compare.
Proof.
  unfold key_compare.
  repeat first [ apply total_cmp_lex | apply total_cmp_na_last
               | apply total_cmp_Z | apply total_cmp_N ].
Qed.

Lemma key_eqb_eq (a b : sort_key) : key_eqb a b = true <-> a = b.
Proof.
  unfold key_eqb. rewrite <- (cmp_eq _ total_cmp_key).
  destruct (key_compare a b); split; congruence.
Qed.

Lemma key_leb_refl (a : sort_key) : key_leb a a = true.
Proof.
  unfold key_leb.
  assert (E : key_compare a a = Eq) by (apply (cmp_eq _ total_cmp_key); reflexivity).
  rewrite E. reflexivity.
Qed.

Lemma key_leb_total (a b : sort_key) : key_leb a b = false -> key_leb b a = true.
Proof.
  unfold key_leb. rewrite (cmp_opp _ total_cmp_key a b).
  destruct (key_compare a b); simpl; congruence.
Qed.

Lemma key_leb_trans (a b c : sort_key) :
  key_leb a b = true -> key_leb b c = true -> key_leb a c = true.
Proof.
  unfold key_leb. pose proof total_cmp_key as [Heq _ Htr].
  destruct (key_compare a b) eqn:E1; try discriminate;
    destruct (key_compare b c) eqn:E2; try discriminate; intros _ _.
  - apply Heq in E1, E2. subst. rewrite (proj2 (Heq c c) eq_refl). reflexivity.
  - apply Heq in E1. subst. rewrite E2. reflexivity.
  - apply Heq in E2. subst. rewrite E1. reflexivity.
  - rewrite (Htr _ _ _ E1 E2). reflexivity.
Qed.

Lemma insert_row_perm (x : classified) (l : list classified) :
  Permutation (insert_row x l) (x :: l).
Proof.
  induction l as [|y l IH]; simpl; [reflexivity|].
  destruct (key_leb (key_of x) (key_of y)); [reflexivity|].
  rewrite IH. apply perm_swap.
Qed.

Lemma insert_row_sorted (x : classified) (l : list classified) :
  StronglySorted row_le l -> StronglySorted row_le (insert_row x l).
Proof.
  induction 1 as [|y l Hs IH Hy]; simpl.
  - repeat constructor.
  - destruct (key_leb (key_of x) (key_of y)) eqn:E.
    + constructor; [constructor; assumption|].
      constructor; [exact E|].
      eapply Forall_impl; [|exact Hy].
      intros z Hz. eapply key_leb_trans; eassumption.
    + constructor; [exact IH|].
      rewrite Forall_forall in *. intros z Hz.
      apply (Permutation_in _ (insert_row_perm x l)) in Hz.
      destruct Hz as [<-|Hz]; [apply key_leb_total, E|auto].
Qed.

Lemma insert_row_stable (k : sort_key) (x : classified) (l : list classified) :
  filter (has_key k) (insert_row x l) = filter (has_key k) (x :: l).
Proof.
  induction l as [|y l IH]; [reflexivity|].
  simpl insert_row. destruct (key_leb (key_of x) (key_of y)) eqn:E; [reflexivity|].
  simpl in *. rewrite IH.
  destruct (has_key k x) eqn:Hx; [|reflexivity].
  destruct (has_key k y) eqn:Hy; [|reflexivity].
  unfold has_key in Hx, Hy. apply key_eqb_eq in Hx, Hy.
  rewrite <- Hx, <- Hy, key_leb_refl in E. discriminate.
Qed.

Lemma arrange_perm (l : list classified) : Permutation (arrange l) l.
Proof.
  induction l as [|x l IH]; simpl; [constructor|].
  rewrite insert_row_perm. constructor. exact IH.
Qed.

Lemma arrange_sorted (l : list classified) : StronglySorted row_le (arrange l).
Proof.
  induction l as [|x l IH]; simpl; [constructor|].
  apply insert_row_sorted, IH.
Qed.

Lemma arrange_stable (k : sort_key) (l : list classified) :
  filter (has_key k) (arrange l) = filter (has_key k) l.
Proof.
  induction l as [|x l IH]; simpl; [reflexivity|].
  rewrite insert_row_stable. simpl. rewrite IH. reflexivity.
Qed.

Lemma arrange_length (l : list classified) :
  List.length (arrange l) = List.length l.
Proof. apply Permutation_length, arrange_perm. Qed.

(** ** Shape of the pipeline *)

Lemma combine_fst {A B : Type} (l : list A) (l' : list B) :
  List.length l = List.length l' -> map fst (combine l l') = l.
Proof.
  revert l'. induction l as [|a l IH]; intros [|b l'] H; simpl in *;
    try reflexivity; try discriminate.
  f_equal. apply IH. lia.
Qed.

Lemma combine_snd {A B : Type} (l : list A) (l' : list B) :
  List.length l = List.length l' -> map snd (combine l l') = l'.
Proof.
  revert l'. induction l as [|a l IH]; intros [|b l'] H; simpl in *;
    try reflexivity; try discriminate.
  f_equal. apply IH. lia.
Qed.

Lemma add_rank_rows (l : list classified) : map p_row (add_rank l) = l.
Proof.
  unfold add_rank. rewrite map_map. simpl.
  apply combine_snd. apply length_seq.
Qed.

Lemma add_rank_ranks (l : list classified) :
  map priority_rank (add_rank l) = seq 1 (List.length l).
Proof.
  unfold add_rank. rewrite map_map. simpl.
  apply combine_fst. apply length_seq.
Qed.

Lemma add_rank_reasons (l : list classified) (p : prioritized) :
  In p (add_rank l) -> reason_for_priority p = reason_of (p_row p).
Proof.
  unfold add_rank. rewrite in_map_iff. intros (q & <- & _). reflexivity.
Qed.

Lemma add_rank_length (l : list classified) :
  List.length (add_rank l) = List.length l.
Proof. rewrite <- (length_map p_row), add_rank_rows. reflexivity. Qed.

Lemma prioritized_list_length (hot : list string) (db : list sample) :
  List.length (prioritized_list hot db) = List.length (scheduler db).
Proof.
  unfold prioritized_list.
  rewrite add_rank_length, arrange_length, length_map. reflexivity.
Qed.

Lemma subset_at_seq {A : Type} (v : list A) (a n : nat) :
  subset_at v (seq (S a) n) = map (nth_error v) (seq a n).
Proof.
  revert a. induction n as [|n IH]; intros a; simpl; [reflexivity|].
  f_equal. apply IH.
Qed.

Lemma subset_at_one_to {A : Type} (v : list A) (n : nat) :
  subset_at v (one_to n) =
  match n with O => [nth_error v 0] | S _ => map (nth_error v) (seq 0 n) end.
Proof.
  destruct n; [reflexivity|]. unfold one_to. apply subset_at_seq.
Qed.

(** The run always ends with a schedule: its rows are those of
    [prioritized_list], its date column is read off the filtered calendar
    by position. *)
Lemma final_schedule_columns (i : inputs) :
  exists s, final_schedule i = Some s /\
    map s_row s = prioritized_list (hotlist i) (svi_database i) /\
    map meeting_date s =
      assigned_dates (List.length (scheduler (svi_database i))) (run_dates i).
Proof.
  unfold final_schedule, run_dates, assigned_dates.
  rewrite prioritized_list_length.
  set (pl := prioritized_list _ _).
  set (n := List.length (scheduler _)).
  set (dates := final_meeting_dates _ _ _).
  assert (Hn : List.length pl = n) by apply prioritized_list_length.
  rewrite subset_at_one_to. unfold mutate_meeting_date.
  destruct n as [|n].
  - destruct pl; [|discriminate]. simpl. exists []. auto.
  - set (col := map (nth_error dates) (seq 0 (S n))).
    assert (Hc : List.length col = List.length pl).
    { unfold col. rewrite length_map, length_seq. congruence. }
    rewrite Hc, Nat.eqb_refl. eexists. split; [reflexivity|].
    rewrite !map_map. simpl. split.
    + apply combine_fst. congruence.
    + apply combine_snd. congruence.
Qed.

Lemma final_schedule_length (i : inputs) (s : list scheduled) :
  final_schedule i = Some s ->
  List.length s = List.length (scheduler (svi_database i)).
Proof.
  destruct (final_schedule_columns i) as (s' & E & Hr & _). intros H.
  rewrite H in E. injection E as <-.
  rewrite <- (length_map s_row), Hr. apply prioritized_list_length.
Qed.

(** Row [k] of the schedule: rank [k + 1], the date at position [k]. *)
Lemma final_schedule_row (i : inputs) (s : list scheduled) (k : nat)
    (e : scheduled) :
  final_schedule i = Some s -> nth_error s k = Some e ->
  rank_of e = S k /\ meeting_date e = nth_error (run_dates i) k /\
  (k < List.length (scheduler (svi_database i)))%nat.
Proof.
  destruct (final_schedule_columns i) as (s' & E & Hr & Hd). intros H Hk.
  rewrite H in E. injection E as <-.
  assert (Hlen : (k < List.length (scheduler (svi_database i)))%nat).
  { rewrite <- (final_schedule_length i s H). apply nth_error_Some. congruence. }
  split; [|split; [|exact Hlen]].
  - assert (Hrk : map rank_of s = seq 1 (List.length (scheduler (svi_database i)))).
    { unfold rank_of. rewrite <- (map_map s_row priority_rank), Hr.
      unfold prioritized_list. rewrite add_rank_ranks, arrange_length, length_map.
      reflexivity. }
    apply (f_equal (fun l => nth_error l k)) in Hrk.
    rewrite nth_error_map, Hk, nth_error_seq in Hrk. simpl in Hrk.
    apply Nat.ltb_lt in Hlen. rewrite Hlen in Hrk. congruence.
  - apply (f_equal (fun l => nth_error l k)) in Hd.
    unfold assigned_dates in Hd.
    rewrite !nth_error_map, Hk, nth_error_seq in Hd. simpl in Hd.
    apply Nat.ltb_lt in Hlen. rewrite Hlen in Hd. simpl in Hd. congruence.
Qed.

(** * The claims *)

(** C4.  With [startDate] the run date minus one day, the first candidate
    is the earliest Tuesday or Friday strictly after [startDate] (so
    [startDate] itself is never the first candidate, whatever its weekday),
    and every later candidate is its predecessor plus 3 days when the
    predecessor is a Tuesday and plus 4 days when it is a Friday. *)
Theorem first_candidate_and_cadence (run_date : Z) (num_meetings : nat) :
  let startDate := today run_date in
  let candidates := potential_dates num_meetings startDate in
  startDate = run_date - 1 /\
  nth_error candidates 0 = Some (first_meeting startDate) /\
  startDate < first_meeting startDate /\
  is_meeting_day (first_meeting startDate) /\
  (forall d, startDate < d < first_meeting startDate -> ~ is_meeting_day d) /\
  (forall k d d',
      nth_error candidates k = Some d ->
      nth_error candidates (S k) = Some d' ->
      (Calendar.wday d = Calendar.Tuesday /\ d' = d + 3) \/
      (Calendar.wday d = Calendar.Friday /\ d' = d + 4)).
Proof.
  intros startDate candidates. repeat split.
  - unfold candidates, potential_dates.
    replace (num_meetings + 40)%nat with (S (num_meetings + 39)) by lia.
    reflexivity.
  - apply first_meeting_after.
  - apply first_meeting_is_meeting_day.
  - apply first_meeting_earliest.
  - intros k d d' Hd Hd'.
    assert (Hm : is_meeting_day d).
    { pose proof (generate_dates_meeting_days (num_meetings + 40) _
                    (first_meeting_is_meeting_day startDate)) as HF.
      rewrite Forall_forall in HF. apply HF. eapply nth_error_In. exact Hd. }
    rewrite (generate_dates_step _ _ _ _ _ Hd Hd').
    apply next_date_cadence, Hm.
Qed.

(** C5.  When at least as many dates survive the exclusion filter as there
    are eligible records, the run produces a schedule in which every entry
    has a meeting date that is a Tuesday or a Friday and is not in the
    exclusion list, an entry of higher priority rank has a strictly later
    date, and no two entries share a date. *)
Theorem meeting_dates_increasing_and_valid (i : inputs) :
  (List.length (scheduler (svi_database i)) <= List.length (run_dates i))%nat ->
  exists s, final_schedule i = Some s /\
    (forall e, In e s ->
       exists d, meeting_date e = Some d /\ is_meeting_day d /\
                 ~ In d (do_not_schedule_dates i)) /\
    (forall e1 e2 d1 d2, In e1 s -> In e2 s ->
       meeting_date e1 = Some d1 -> meeting_date e2 = Some d2 ->
       (rank_of e1 < rank_of e2)%nat -> d1 < d2) /\
    (forall j k e1 e2, nth_error s j = Some e1 -> nth_error s k = Some e2 ->
       j <> k -> meeting_date e1 <> meeting_date e2).
Proof.
  intros Hn. destruct (final_schedule_columns i) as (s & E & _).
  exists s. split; [exact E|].
  pose proof (final_meeting_dates_increasing
                (List.length (scheduler (svi_database i)))
                (today (Sys_Date i)) (do_not_schedule_dates i)) as Hs.
  fold (run_dates i) in Hs.
  assert (Hdef : forall k e, nth_error s k = Some e ->
                   exists d, nth_error (run_dates i) k = Some d /\
                             meeting_date e = Some d).
  { intros k e Hk. destruct (final_schedule_row i s k e E Hk) as (_ & Hd & Hlt).
    destruct (nth_error (run_dates i) k) as [d|] eqn:Ed.
    - exists d. auto.
    - apply nth_error_None in Ed. lia. }
  split; [|split].
  - intros e He. apply In_nth_error in He. destruct He as (k & Hk).
    destruct (Hdef k e Hk) as (d & Hd & Hm). exists d. split; [exact Hm|].
    apply nth_error_In in Hd. apply final_meeting_dates_valid in Hd. tauto.
  - intros e1 e2 d1 d2 H1 H2 M1 M2 Hr.
    apply In_nth_error in H1, H2. destruct H1 as (j & Hj), H2 as (k & Hk).
    destruct (final_schedule_row i s j e1 E Hj) as (R1 & D1 & _).
    destruct (final_schedule_row i s k e2 E Hk) as (R2 & D2 & _).
    apply (sorted_nth_lt _ Hs j k); [congruence..|lia].
  - intros j k e1 e2 Hj Hk Hne Heq.
    destruct (Hdef j e1 Hj) as (d1 & N1 & M1).
    destruct (Hdef k e2 Hk) as (d2 & N2 & M2).
    assert (d1 = d2) by congruence. subst d2.
    destruct (Nat.lt_total j k) as [Hlt|[Hjk|Hlt]]; [|contradiction|].
    + pose proof (sorted_nth_lt _ Hs j k d1 d1 N1 N2 Hlt). lia.
    + pose proof (sorted_nth_lt _ Hs k j d1 d1 N2 N1 Hlt). lia.
Qed.

(** C8.  The loop produces exactly N + 40 candidates, N the number of
    eligible records; when at most 40 of them are in the exclusion list,
    the run yields N entries and each has a defined meeting date, the date
    found at its own position of the filtered calendar. *)
Theorem buffer_of_forty_candidates (i : inputs) :
  let N := List.length (scheduler (svi_database i)) in
  List.length (potential_dates N (today (Sys_Date i))) = (N + 40)%nat /\
  ((List.length (excluded_candidates i) <= 40)%nat ->
   exists s, final_schedule i = Some s /\ List.length s = N /\
     forall k e, nth_error s k = Some e ->
       exists d, meeting_date e = Some d /\ nth_error (run_dates i) k = Some d).
Proof.
  intros N. split; [apply potential_dates_length|].
  intros Hx. destruct (final_schedule_columns i) as (s & E & _).
  exists s. split; [exact E|]. split; [apply final_schedule_length, E|].
  intros k e Hk. destruct (final_schedule_row i s k e E Hk) as (_ & Hd & Hlt).
  assert (Hlen : (N <= List.length (run_dates i))%nat).
  { pose proof (filter_split_length
                  (fun d => Str.in_dates d (do_not_schedule_dates i))
                  (potential_dates N (today (Sys_Date i)))) as Hsplit.
    rewrite potential_dates_length in Hsplit.
    unfold excluded_candidates in Hx. fold N in Hx.
    unfold run_dates, final_meeting_dates. fold N. lia. }
  destruct (nth_error (run_dates i) k) as [d|] eqn:Ed.
  - exists d. auto.
  - apply nth_error_None in Ed. fold N in Hlt. lia.
Qed.

(** C10.  Two runs with the same number of eligible records, the same run
    date and the same set of excluded dates assign the same sequence of
    meeting dates, whatever the records and the hot list are. *)
Theorem dates_depend_on_count_date_exclusions (i1 i2 : inputs) :
  List.length (scheduler (svi_database i1)) =
    List.length (scheduler (svi_database i2)) ->
  Sys_Date i1 = Sys_Date i2 ->
  (forall d, In d (do_not_schedule_dates i1) <-> In d (do_not_schedule_dates i2)) ->
  exists s1 s2, final_schedule i1 = Some s1 /\ final_schedule i2 = Some s2 /\
    map meeting_date s1 = map meeting_date s2.
Proof.
  intros Hn Hd Hx.
  destruct (final_schedule_columns i1) as (s1 & E1 & _ & D1).
  destruct (final_schedule_columns i2) as (s2 & E2 & _ & D2).
  exists s1, s2. split; [exact E1|]. split; [exact E2|].
  rewrite D1, D2, Hn. f_equal.
  unfold run_dates, final_meeting_dates. rewrite Hn, Hd.
  apply filter_ext_on. intros d _. f_equal.
  destruct (Str.in_dates d (do_not_schedule_dates i1)) eqn:A;
    destruct (Str.in_dates d (do_not_schedule_dates i2)) eqn:B; try reflexivity.
  - apply in_dates_In, Hx, in_dates_In in A. congruence.
  - apply in_dates_In, Hx, in_dates_In in B. congruence.
Qed.

(** C7.  A run whose eligible set is empty does not stop with an error: it
    ends with the empty schedule. *)
Theorem empty_eligible_set_empty_schedule (i : inputs) :
  scheduler (svi_database i) = [] -> final_schedule i = Some [].
Proof.
  intros H. destruct (final_schedule_columns i) as (s & E & _).
  pose proof (final_schedule_length i s E) as L. rewrite H in L.
  destruct s; [exact E|discriminate].
Qed.

(** ** Rows of the schedule and the records they come from *)

Lemma as_Date_of_Date (d : option Z) :
  Calendar.as_Date (Calendar.of_Date d) = d.
Proof. destruct d; reflexivity. Qed.

Lemma classify_row_sample (hot : list string) (r : sample) :
  c_sample (classify_row hot r) = r.
Proof.
  destruct r as [id pb dt cls rp]. unfold classify_row, add_keys. simpl.
  rewrite as_Date_of_Date. reflexivity.
Qed.

Lemma scheduler_In (db : list sample) (r : sample) :
  In r (scheduler db) <-> In r db /\ proband r = Some 1 /\ report r = 0.
Proof.
  unfold scheduler. rewrite filter_In. unfold eligible.
  destruct (proband r) as [p|].
  - rewrite andb_true_iff, !Z.eqb_eq. split.
    + intros (H & -> & ->). auto.
    + intros (H & Hp & ->). injection Hp as ->. auto.
  - split; [intros [_ H]; discriminate|intros (_ & H & _); discriminate].
Qed.

Lemma schedule_rows (i : inputs) (s : list scheduled) :
  final_schedule i = Some s ->
  map (fun e => p_row (s_row e)) s =
    arrange (map (classify_row (hotlist i)) (scheduler (svi_database i))).
Proof.
  intros H. destruct (final_schedule_columns i) as (s' & E & Hr & _).
  rewrite H in E. injection E as <-.
  rewrite <- (map_map s_row p_row), Hr. unfold prioritized_list.
  apply add_rank_rows.
Qed.

Lemma schedule_samples_perm (i : inputs) (s : list scheduled) :
  final_schedule i = Some s ->
  Permutation (map sample_of s) (scheduler (svi_database i)).
Proof.
  intros H. unfold sample_of.
  rewrite <- (map_map (fun e => p_row (s_row e)) c_sample), (schedule_rows i s H).
  rewrite arrange_perm, map_map.
  erewrite map_ext; [rewrite map_id; reflexivity|].
  intros r. apply classify_row_sample.
Qed.

Lemma schedule_row_classified (i : inputs) (s : list scheduled) (e : scheduled) :
  final_schedule i = Some s -> In e s ->
  In (sample_of e) (scheduler (svi_database i)) /\
  p_row (s_row e) = classify_row (hotlist i) (sample_of e) /\
  reason_for_priority (s_row e) = reason_of (p_row (s_row e)).
Proof.
  intros H He.
  assert (Hin : In (p_row (s_row e))
                   (map (classify_row (hotlist i)) (scheduler (svi_database i)))).
  { eapply Permutation_in; [apply arrange_perm|].
    rewrite <- (schedule_rows i s H). apply in_map_iff. exists e. auto. }
  apply in_map_iff in Hin. destruct Hin as (r & Hr & Hin).
  assert (Hs : sample_of e = r).
  { unfold sample_of. rewrite <- Hr. apply classify_row_sample. }
  rewrite Hs. split; [exact Hin|]. split; [symmetry; exact Hr|].
  destruct (final_schedule_columns i) as (s' & E & Hrows & _).
  rewrite H in E. injection E as <-.
  apply (add_rank_reasons (arrange (map (classify_row (hotlist i))
                                        (scheduler (svi_database i))))).
  fold (prioritized_list (hotlist i) (svi_database i)).
  rewrite <- Hrows. apply in_map. exact He.
Qed.

(** C6.  The eligible records are exactly the database rows with
    [proband = 1] and [report = 0]; the schedule holds one entry for each
    of them (its records are a rearrangement of the eligible list), and the
    priority ranks, read down the schedule, are 1, 2, ..., N. *)
Theorem one_entry_per_eligible_record (i : inputs) :
  let eligible_records := scheduler (svi_database i) in
  let N := List.length eligible_records in
  (forall r, In r eligible_records <->
             In r (svi_database i) /\ proband r = Some 1 /\ report r = 0) /\
  exists s, final_schedule i = Some s /\
    Permutation (map sample_of s) eligible_records /\
    List.length s = N /\
    map rank_of s = seq 1 N.
Proof.
  intros el N. split; [apply scheduler_In|].
  destruct (final_schedule_columns i) as (s & E & Hr & _).
  exists s. split; [exact E|]. split; [apply schedule_samples_perm, E|].
  split; [apply final_schedule_length, E|].
  unfold rank_of. rewrite <- (map_map s_row priority_rank), Hr.
  unfold prioritized_list. rewrite add_rank_ranks, arrange_length, length_map.
  reflexivity.
Qed.

(** *** The table as delivered *)

Lemma filter_map_comm {A B : Type} (f : B -> bool) (g : A -> B) (l : list A) :
  filter f (map g l) = map g (filter (fun a => f (g a)) l).
Proof.
  induction l as [|a l IH]; simpl; [reflexivity|].
  destruct (f (g a)); simpl; rewrite IH; reflexivity.
Qed.

Lemma classify_database_row_eq (hot : list string) (r : database_row) :
  classify_database_row hot r = classify_row hot (with_calendar_date r).
Proof.
  unfold classify_database_row, classify_row, add_keys_row, add_keys,
    with_calendar_date. simpl. rewrite as_Date_of_Date. reflexivity.
Qed.

Lemma scheduler_of_run (db : list database_row) :
  scheduler (map with_calendar_date db)
  = map with_calendar_date (scheduler_frame db).
Proof.
  unfold scheduler, scheduler_frame. rewrite filter_map_comm. reflexivity.
Qed.

(** The scheduler on the delivered table is the scheduler on the table
    with calendar dates: what is proved of [final_schedule] holds of
    [run_schedule]. *)
Lemma run_schedule_eq (x : run) :
  run_schedule x = final_schedule (inputs_of_run x).
Proof.
  assert (H : prioritized_rows (run_hotlist x) (run_database x)
              = prioritized_list (run_hotlist x)
                  (map with_calendar_date (run_database x))).
  { unfold prioritized_rows, prioritized_list.
    rewrite scheduler_of_run, map_map. do 2 f_equal.
    apply map_ext. intros r. apply classify_database_row_eq. }
  unfold run_schedule, final_schedule, inputs_of_run, do_not_schedule_dates.
  simpl. rewrite H. reflexivity.
Qed.

(** C9, as stated, fails on the code: the first [mutate] overwrites the
    received date.  In the run below the only eligible record was received
    on 2025-01-01 at 13:30 UTC; its schedule entry carries the calendar
    date 2025-01-01, another value and another instant. *)
Lemma received_date_is_rewritten :
  exists e, run_schedule afternoon_run = Some [e] /\
    Calendar.of_Date (Date_Received (sample_of e)) = Calendar.Date 20089 /\
    Calendar.of_Date (Date_Received (sample_of e)) <> Calendar.POSIXct 1735738200 /\
    Calendar.instant (Calendar.of_Date (Date_Received (sample_of e)))
      = Some 1735689600 /\
    Calendar.instant (Calendar.POSIXct 1735738200) = Some 1735738200.
Proof.
  eexists. split; [vm_compute; reflexivity|].
  repeat split; try reflexivity. discriminate.
Qed.

(** C9, amended.  Every entry of the schedule carries, unchanged, the
    identifier, proband flag, identifier class and reported flag of an
    eligible record of the database, and every eligible record appears this
    way; its received date is [as.Date] of the record's: the calendar day of
    a date-time, the same date when the record holds a calendar date
    already.  All other columns are derived from that record and added. *)
Theorem original_fields_kept_received_date_coerced (x : run) :
  exists s, run_schedule x = Some s /\
    Permutation (map sample_of s)
                (map with_calendar_date (scheduler_frame (run_database x))) /\
    forall e, In e s ->
      exists r, In r (run_database x) /\ eligible_row r = true /\
        Sample_ID (sample_of e) = db_Sample_ID r /\
        proband (sample_of e) = db_proband r /\
        Identifier (sample_of e) = db_Identifier r /\
        report (sample_of e) = db_report r /\
        Date_Received (sample_of e) = Calendar.as_Date (db_Date_Received r) /\
        (forall d, db_Date_Received r = Calendar.Date d ->
                   Date_Received (sample_of e) = Some d) /\
        p_row (s_row e) = classify_database_row (run_hotlist x) r /\
        reason_for_priority (s_row e)
          = reason_of (classify_database_row (run_hotlist x) r).
Proof.
  rewrite run_schedule_eq.
  destruct (final_schedule_columns (inputs_of_run x)) as (s & E & _).
  exists s. split; [exact E|]. split.
  - rewrite <- scheduler_of_run. apply (schedule_samples_perm _ s E).
  - intros e He.
    destruct (schedule_row_classified _ s e E He) as (Hin & Hc & Hr).
    simpl in Hin, Hc. rewrite scheduler_of_run in Hin.
    apply in_map_iff in Hin. destruct Hin as (r & Hs & Hin).
    unfold scheduler_frame in Hin. apply filter_In in Hin.
    destruct Hin as [Hdb Hel]. exists r.
    rewrite Hr, Hc, <- Hs, <- classify_database_row_eq.
    repeat split; auto.
    intros d Hd. simpl. rewrite Hd. reflexivity.
Qed.

(** ** The order, spelt out *)

Lemma compare_na_last_Z (x y : option Z) :
  match compare_na_last Z.compare x y with
  | Lt => na_lt Z.lt x y
  | Eq => x = y
  | Gt => na_lt Z.lt y x
  end.
Proof.
  destruct x as [a|], y as [b|]; simpl; auto.
  destruct (Z.compare_spec a b); [subst; reflexivity|assumption..].
Qed.

Lemma na_lt_Z_irrefl (x y : option Z) : na_lt Z.lt x y -> x <> y.
Proof. destruct x, y; simpl; intros H E; try discriminate; try tauto. injection E. lia. Qed.

Lemma na_lt_Z_asym (x y : option Z) : na_lt Z.lt x y -> ~ na_lt Z.lt y x.
Proof. destruct x, y; simpl; intros; try tauto; lia. Qed.

Lemma compare_na_last_N (x y : option N) :
  compare_na_last N.compare x y <> Gt <-> na_le N.le x y.
Proof.
  destruct x as [a|], y as [b|]; simpl.
  - unfold N.le. tauto.
  - split; [tauto|congruence].
  - split; [congruence|tauto].
  - split; [tauto|congruence].
Qed.

Lemma row_le_composite (a b : classified) : row_le a b <-> composite_le a b.
Proof.
  unfold row_le, composite_le, key_leb, key_compare, key_of, lex_compare. simpl.
  pose proof (compare_na_last_Z (Date_Received (c_sample a))
                                (Date_Received (c_sample b))) as Hd.
  pose proof (compare_na_last_N (sample_id_num a) (sample_id_num b)) as Hn.
  destruct (Z.compare_spec (priority_level a) (priority_level b)) as [Ht|Ht|Ht].
  - destruct (compare_na_last Z.compare _ _).
    + rewrite <- Hn.
      destruct (compare_na_last N.compare _ _); split; intros H;
        try reflexivity; try discriminate.
      * right. split; [exact Ht|]. right. split; [exact Hd|congruence].
      * right. split; [exact Ht|]. right. split; [exact Hd|congruence].
      * destruct H as [H|(_ & [H|(_ & H)])]; [lia| |congruence].
        apply na_lt_Z_irrefl in H. contradiction.
    + split; [|reflexivity]. intros _. right. split; [exact Ht|]. left. exact Hd.
    + split; [discriminate|].
      intros [H|(_ & [H|(H & _)])]; [lia| |].
      * apply na_lt_Z_asym in H. contradiction.
      * apply na_lt_Z_irrefl in Hd. congruence.
  - split; [|reflexivity]. intros _. left. exact Ht.
  - split; [discriminate|]. intros [H|(H & _)]; lia.
Qed.

Lemma sorted_weaken {A : Type} (R R' : A -> A -> Prop) (l : list A) :
  (forall a b, R a b -> R' a b) -> StronglySorted R l -> StronglySorted R' l.
Proof.
  intros H. induction 1 as [|x l Hs IH Hx]; constructor; [exact IH|].
  eapply Forall_impl; [|exact Hx]. intros y. apply H.
Qed.

Lemma has_key_iff (k : sort_key) (c : classified) :
  has_key k c = true <->
  k = (priority_level c, Date_Received (c_sample c), sample_id_num c).
Proof. unfold has_key. apply key_eqb_eq. Qed.

(** C3, as stated, fails on the code: the third key is the double that
    [as.numeric] makes of the digits, so numbers above 2^53 can tie.  The
    two records below have the same tier and date and the numbers 2^53 + 1
    and 2^53; they tie and keep their ingestion order, the record with the
    larger number first. *)
Lemma large_numbers_keep_ingestion_order :
  exists e1 e2, final_schedule large_numbers_run = Some [e1; e2] /\
    priority_level (p_row (s_row e1)) = priority_level (p_row (s_row e2)) /\
    Date_Received (sample_of e1) = Date_Received (sample_of e2) /\
    option_map Str.digits_value (Str.str_extract_digits (Sample_ID (sample_of e1)))
      = Some 9007199254740993%N /\
    option_map Str.digits_value (Str.str_extract_digits (Sample_ID (sample_of e2)))
      = Some 9007199254740992%N /\
    sample_id_num (p_row (s_row e1)) = sample_id_num (p_row (s_row e2)).
Proof.
  do 2 eexists. split; [vm_compute; reflexivity|].
  repeat split; vm_compute; reflexivity.
Qed.

(** C3, amended.  The rows of the schedule are the classified eligible
    records put in ascending order of (tier, date received, number taken
    from the identifier), that number being the double [as.numeric] makes
    of the identifier's first run of digits and a missing date or number
    counting as largest; the sort is stable: the rows that tie on all three
    keys (rows without a number tie on the third key with each other, and
    so do rows whose numbers round to the same double) stand in the order
    they had before the sort. *)
Theorem schedule_order_is_stable_sort (i : inputs) :
  let ingested := map (classify_row (hotlist i)) (scheduler (svi_database i)) in
  exists s, final_schedule i = Some s /\
    let rows := map (fun e => p_row (s_row e)) s in
    Permutation rows ingested /\
    StronglySorted composite_le rows /\
    (forall k, tied_at k rows = tied_at k ingested) /\
    (forall k c, In c (tied_at k rows) <->
       In c rows /\
       k = (priority_level c, Date_Received (c_sample c), sample_id_num c)) /\
    (forall c, In c rows ->
       sample_id_num c
       = option_map Str.as_numeric
           (Str.str_extract_digits (Sample_ID (c_sample c)))).
Proof.
  intros ingested. destruct (final_schedule_columns i) as (s & E & _).
  exists s. split; [exact E|]. intros rows.
  assert (Hrows : rows = arrange ingested) by apply (schedule_rows i s E).
  rewrite Hrows. split; [apply arrange_perm|]. split; [|split; [|split]].
  - eapply sorted_weaken; [|apply arrange_sorted].
    intros a b. apply row_le_composite.
  - intros k. apply arrange_stable.
  - intros k c. unfold tied_at. rewrite filter_In, has_key_iff. reflexivity.
  - intros c Hc. apply (Permutation_in _ (arrange_perm ingested)) in Hc.
    unfold ingested in Hc. apply in_map_iff in Hc.
    destruct Hc as (r & <- & _). reflexivity.
Qed.

(** ** The classifier *)

Lemma in_chr_In (x : string) (table : list string) :
  Str.in_chr x table = true <-> In x table.
Proof.
  unfold Str.in_chr. rewrite existsb_exists. split.
  - intros (y & Hy & Heq). apply String.eqb_eq in Heq. subst. exact Hy.
  - intros H. exists x. split; [exact H|apply String.eqb_refl].
Qed.

Lemma window_cases (k : Z) : 0 <= k <= 3 -> k = 0 \/ k = 1 \/ k = 2 \/ k = 3.
Proof. lia. Qed.

Lemma year_is_false (y : option Z) (k : Z) :
  y <> Some (referenceYear - k) -> year_is y (2025 - k) = false.
Proof.
  unfold referenceYear, year_is. destruct y as [v|]; [|reflexivity].
  intros H. apply Z.eqb_neq. congruence.
Qed.

Lemma classify_row_rules (hot : list string) (r : sample) :
  first_match_rules hot r (priority_level (classify_row hot r))
                    (reason_of (classify_row hot r)).
Proof.
  destruct r as [id pb dt cls rp].
  unfold first_match_rules, reason_of, classify_row, add_keys, priority_level_of.
  simpl. rewrite as_Date_of_Date.
  destruct (Str.in_chr id hot) eqn:Eh.
  - apply in_chr_In in Eh. repeat split; tauto.
  - assert (Hn : ~ In id hot) by (rewrite <- in_chr_In; congruence).
    split; [tauto|]. split; [|split; [|split]].
    + intros _ ->. auto.
    + intros _ -> k Hk Hy. rewrite Hy.
      destruct (window_cases k Hk) as [-> | [-> | [-> | ->]]]; split; reflexivity.
    + intros _ -> k Hk Hy. rewrite Hy.
      destruct (window_cases k Hk) as [-> | [-> | [-> | ->]]]; split; reflexivity.
    + intros _ Hu Hy.
      pose proof (year_is_false _ 0 (Hy 0 ltac:(lia))) as Y0.
      pose proof (year_is_false _ 1 (Hy 1 ltac:(lia))) as Y1.
      pose proof (year_is_false _ 2 (Hy 2 ltac:(lia))) as Y2.
      pose proof (year_is_false _ 3 (Hy 3 ltac:(lia))) as Y3.
      simpl in Y0, Y1, Y2, Y3.
      destruct cls; [congruence| |]; simpl; rewrite Y0, Y1, Y2, Y3; auto.
Qed.

(** C1.  The classifier follows the first-match-wins rules: hot list, tier
    0 and "CRITICAL: Hot List" whatever the class and date; else UIC, tier
    1 and "Highest Priority: UIC"; else UDD received in year
    referenceYear - k, k = 0..3, tier 2 + k and "UDD <year>"; else Base in
    the same window, tier 102 + k and "Base <year>"; else tier 999 and the
    class followed by the year.  This holds of the classifier on every
    record and of the tier and reason columns of every schedule entry. *)
Theorem classifier_first_match_wins :
  (forall hot r,
     first_match_rules hot r (priority_level (classify_row hot r))
                       (reason_of (classify_row hot r))) /\
  (forall i, exists s, final_schedule i = Some s /\
     forall e, In e s ->
       first_match_rules (hotlist i) (sample_of e)
                         (priority_level (p_row (s_row e)))
                         (reason_for_priority (s_row e))).
Proof.
  split; [exact classify_row_rules|].
  intros i. destruct (final_schedule_columns i) as (s & E & _).
  exists s. split; [exact E|]. intros e He.
  destruct (schedule_row_classified i s e E He) as (_ & Hc & Hr).
  rewrite Hr, Hc. apply classify_row_rules.
Qed.

(** ** Calendar exhaustion *)

(** C2, as stated, fails on the code.  In the run below one record is
    eligible and no candidate survives the exclusion filter, yet the run
    ends normally with a one-entry schedule whose meeting date is [NA]. *)
Lemma calendar_exhaustion_is_not_fatal :
  (List.length (run_dates suspended_run)
   < List.length (scheduler (svi_database suspended_run)))%nat /\
  exists e, final_schedule suspended_run = Some [e] /\ meeting_date e = None.
Proof.
  split.
  - vm_compute. lia.
  - eexists. split; vm_compute; reflexivity.
Qed.

(** C2, amended.  When fewer dates survive the exclusion filter than there
    are eligible records, the run does not stop: it yields one entry per
    eligible record; the entries whose position is within the surviving
    dates get those dates in order, every later entry gets [NA]. *)
Theorem calendar_exhaustion_leaves_dates_undefined (i : inputs) :
  (List.length (run_dates i) < List.length (scheduler (svi_database i)))%nat ->
  exists s, final_schedule i = Some s /\
    List.length s = List.length (scheduler (svi_database i)) /\
    (forall k e, nth_error s k = Some e ->
       meeting_date e = nth_error (run_dates i) k /\
       ((List.length (run_dates i) <= k)%nat -> meeting_date e = None)) /\
    (exists e, In e s /\ meeting_date e = None).
Proof.
  intros Hlt. destruct (final_schedule_columns i) as (s & E & _).
  exists s. split; [exact E|].
  pose proof (final_schedule_length i s E) as Hlen.
  split; [exact Hlen|]. split.
  - intros k e Hk. destruct (final_schedule_row i s k e E Hk) as (_ & Hd & _).
    split; [exact Hd|]. intros Hge. rewrite Hd. apply nth_error_None, Hge.
  - destruct (nth_error s (List.length (run_dates i))) as [e|] eqn:Ee.
    + exists e. split; [eapply nth_error_In; exact Ee|].
      destruct (final_schedule_row i s _ e E Ee) as (_ & Hd & _).
      rewrite Hd. apply nth_error_None. lia.
    + apply nth_error_None in Ee. lia.
Qed.

(** ** The theorems at concrete runs *)

Lemma calendar_exhaustion_leaves_dates_undefined_witness :
  exists s, final_schedule suspended_run = Some s /\
            exists e, In e s /\ meeting_date e = None.
Proof.
  assert (H : (List.length (run_dates suspended_run)
               < List.length (scheduler (svi_database suspended_run)))%nat)
    by (vm_compute; lia).
  destruct (calendar_exhaustion_leaves_dates_undefined suspended_run H)
    as (s & E & _ & _ & Hna).
  exists s. split; [exact E|exact Hna].
Defined.

Lemma meeting_dates_increasing_and_valid_witness :
  exists s, final_schedule example_run = Some s /\
    forall e, In e s ->
      exists d, meeting_date e = Some d /\ is_meeting_day d /\
                ~ In d (do_not_schedule_dates example_run).
Proof.
  assert (H : (List.length (scheduler (svi_database example_run))
               <= List.length (run_dates example_run))%nat)
    by (vm_compute; lia).
  destruct (meeting_dates_increasing_and_valid example_run H) as (s & E & Hv & _).
  exists s. split; [exact E|exact Hv].
Defined.

Lemma buffer_of_forty_candidates_witness :
  exists s, final_schedule example_run = Some s /\ List.length s = 4%nat.
Proof.
  assert (H : (List.length (excluded_candidates example_run) <= 40)%nat)
    by (vm_compute; lia).
  destruct (buffer_of_forty_candidates example_run) as (_ & Hd).
  destruct (Hd H) as (s & E & Hlen & _).
  exists s. split; [exact E|exact Hlen].
Defined.

Lemma dates_depend_on_count_date_exclusions_witness :
  exists s1 s2, final_schedule example_run = Some s1 /\
                final_schedule reshuffled_run = Some s2 /\
                map meeting_date s1 = map meeting_date s2.
Proof.
  apply (dates_depend_on_count_date_exclusions example_run reshuffled_run).
  - reflexivity.
  - reflexivity.
  - intros d. simpl. tauto.
Defined.

Lemma empty_eligible_set_empty_schedule_witness :
  final_schedule idle_run = Some [].
Proof.
  apply (empty_eligible_set_empty_schedule idle_run). reflexivity.
Defined.

(** * Further properties of the scheduler *)

(** ** Tiers, ranks and dates *)

Lemma sorted_nth {A : Type} (R : A -> A -> Prop) (l : list A) :
  StronglySorted R l ->
  forall j k a b, nth_error l j = Some a -> nth_error l k = Some b ->
                  (j < k)%nat -> R a b.
Proof.
  induction 1 as [|x l Hs IH Hx]; intros j k a b Hj Hk Hlt.
  - destruct j; discriminate.
  - destruct k as [|k]; [lia|]. simpl in Hk.
    destruct j as [|j]; simpl in Hj.
    + injection Hj as <-. rewrite Forall_forall in Hx.
      apply Hx. eapply nth_error_In; eassumption.
    + eapply IH; [eassumption..|lia].
Qed.

Lemma schedule_rows_sorted (i : inputs) (s : list scheduled) :
  final_schedule i = Some s ->
  StronglySorted composite_le (map (fun e => p_row (s_row e)) s).
Proof.
  intros H. rewrite (schedule_rows i s H).
  eapply sorted_weaken; [|apply arrange_sorted].
  intros a b. apply row_le_composite.
Qed.

(** A row of strictly lower tier stands higher up in the schedule. *)
Lemma lower_tier_position (i : inputs) (s : list scheduled) (j k : nat)
    (e1 e2 : scheduled) :
  final_schedule i = Some s ->
  nth_error s j = Some e1 -> nth_error s k = Some e2 ->
  priority_level (p_row (s_row e1)) < priority_level (p_row (s_row e2)) ->
  (j < k)%nat.
Proof.
  intros H Hj Hk Hlt.
  destruct (Nat.lt_total j k) as [L|[L|L]]; [exact L| |].
  - subst k. rewrite Hj in Hk. injection Hk as <-. lia.
  - pose proof (schedule_rows_sorted i s H) as Hs.
    assert (Hle : composite_le (p_row (s_row e2)) (p_row (s_row e1))).
    { apply (sorted_nth _ _ Hs k j); [| |exact L].
      - rewrite nth_error_map, Hk. reflexivity.
      - rewrite nth_error_map, Hj. reflexivity. }
    unfold composite_le in Hle. lia.
Qed.

(** A row higher up has the smaller rank and, when the lower row has a
    date, an earlier date. *)
Lemma earlier_position_earlier_date (i : inputs) (s : list scheduled)
    (j k : nat) (e1 e2 : scheduled) :
  final_schedule i = Some s ->
  nth_error s j = Some e1 -> nth_error s k = Some e2 -> (j < k)%nat ->
  (rank_of e1 < rank_of e2)%nat /\
  forall d2, meeting_date e2 = Some d2 ->
    exists d1, meeting_date e1 = Some d1 /\ d1 < d2.
Proof.
  intros H Hj Hk Hlt.
  destruct (final_schedule_row i s j e1 H Hj) as (R1 & D1 & _).
  destruct (final_schedule_row i s k e2 H Hk) as (R2 & D2 & _).
  split; [lia|]. intros d2 Hd2. rewrite D2 in Hd2.
  assert (Hjl : (j < List.length (run_dates i))%nat).
  { assert (k < List.length (run_dates i))%nat
      by (apply nth_error_Some; congruence). lia. }
  destruct (nth_error (run_dates i) j) as [d1|] eqn:E1;
    [|apply nth_error_None in E1; lia].
  exists d1. split; [exact D1|].
  eapply (sorted_nth_lt (run_dates i)); [|exact E1|exact Hd2|exact Hlt].
  apply final_meeting_dates_increasing.
Qed.

(** X1.  In the schedule an entry of strictly lower priority level has the
    smaller priority rank, and whenever the entry of higher level has a
    meeting date the entry of lower level has one too, strictly earlier. *)
Theorem lower_tier_is_scheduled_first (i : inputs) :
  exists s, final_schedule i = Some s /\
    forall e1 e2, In e1 s -> In e2 s ->
      priority_level (p_row (s_row e1)) < priority_level (p_row (s_row e2)) ->
      (rank_of e1 < rank_of e2)%nat /\
      forall d2, meeting_date e2 = Some d2 ->
        exists d1, meeting_date e1 = Some d1 /\ d1 < d2.
Proof.
  destruct (final_schedule_columns i) as (s & E & _).
  exists s. split; [exact E|]. intros e1 e2 H1 H2 Hlt.
  apply In_nth_error in H1, H2. destruct H1 as (j & Hj), H2 as (k & Hk).
  eapply earlier_position_earlier_date; try eassumption.
  eapply lower_tier_position; eassumption.
Qed.

Lemma priority_level_of_hot (hot : list string) (id : string)
    (cls : identifier) (y : option Z) :
  (In id hot -> priority_level_of hot id cls y = 0) /\
  (~ In id hot -> 1 <= priority_level_of hot id cls y).
Proof.
  unfold priority_level_of. destruct (Str.in_chr id hot) eqn:E.
  - split; [reflexivity|]. intros H. apply in_chr_In in E. contradiction.
  - split; [intros H; apply in_chr_In in H; congruence|]. intros _.
    repeat match goal with
           | |- context [if ?b then _ else _] => destruct b
           end; lia.
Qed.

(** X2.  A record on the hot list is ranked before every scheduled record
    that is not on it, whatever their classes and received dates, and it
    meets strictly earlier whenever the other record has a date. *)
Theorem hot_list_records_come_first (i : inputs) :
  exists s, final_schedule i = Some s /\
    forall e1 e2, In e1 s -> In e2 s ->
      In (Sample_ID (sample_of e1)) (hotlist i) ->
      ~ In (Sample_ID (sample_of e2)) (hotlist i) ->
      (rank_of e1 < rank_of e2)%nat /\
      forall d2, meeting_date e2 = Some d2 ->
        exists d1, meeting_date e1 = Some d1 /\ d1 < d2.
Proof.
  destruct (final_schedule_columns i) as (s & E & _).
  exists s. split; [exact E|]. intros e1 e2 H1 H2 Hhot Hnot.
  assert (Hlt : priority_level (p_row (s_row e1))
                < priority_level (p_row (s_row e2))).
  { destruct (schedule_row_classified i s e1 E H1) as (_ & C1 & _).
    destruct (schedule_row_classified i s e2 E H2) as (_ & C2 & _).
    rewrite C1, C2. unfold classify_row, add_keys. simpl.
    destruct (priority_level_of_hot (hotlist i) (Sample_ID (sample_of e1))
                (Identifier (sample_of e1))
                (option_map Calendar.year
                   (Calendar.as_Date
                      (Calendar.of_Date (Date_Received (sample_of e1)))))) as [A _].
    destruct (priority_level_of_hot (hotlist i) (Sample_ID (sample_of e2))
                (Identifier (sample_of e2))
                (option_map Calendar.year
                   (Calendar.as_Date
                      (Calendar.of_Date (Date_Received (sample_of e2)))))) as [_ B].
    rewrite (A Hhot). specialize (B Hnot). lia. }
  apply In_nth_error in H1, H2. destruct H1 as (j & Hj), H2 as (k & Hk).
  eapply earlier_position_earlier_date; try eassumption.
  eapply lower_tier_position; eassumption.
Qed.

(** ** The order of the database rows *)

Lemma filter_perm {A : Type} (f : A -> bool) (l l' : list A) :
  Permutation l l' -> Permutation (filter f l) (filter f l').
Proof.
  induction 1 as [|x l l' _ IH|x y l|l l' l'' _ IH1 _ IH2]; simpl.
  - constructor.
  - destruct (f x); [constructor|]; exact IH.
  - destruct (f x), (f y); try reflexivity. apply perm_swap.
  - etransitivity; eassumption.
Qed.

Lemma key_leb_antisym (a b : sort_key) :
  key_leb a b = true -> key_leb b a = true -> a = b.
Proof.
  unfold key_leb. rewrite (cmp_opp _ total_cmp_key a b).
  destruct (key_compare a b) eqn:E; simpl; try discriminate.
  intros _ _. apply (cmp_eq _ total_cmp_key). exact E.
Qed.

Lemma sorted_head_least (x : classified) (l : list classified) (y : classified) :
  StronglySorted row_le (x :: l) -> In y (x :: l) -> row_le x y.
Proof.
  intros Hs [<-|Hy].
  - apply key_leb_refl.
  - inversion Hs as [|? ? _ Hx]; subst. rewrite Forall_forall in Hx. auto.
Qed.

(** Two sorted arrangements of the same rows coincide when rows that tie on
    the three sort columns are equal rows. *)
Lemma sorted_perm_unique (l1 l2 : list classified) :
  StronglySorted row_le l1 -> StronglySorted row_le l2 ->
  Permutation l1 l2 ->
  (forall a b, In a l1 -> In b l1 -> key_of a = key_of b -> a = b) ->
  l1 = l2.
Proof.
  revert l2. induction l1 as [|a l1 IH]; intros l2 S1 S2 P Hinj.
  - apply Permutation_nil in P. congruence.
  - destruct l2 as [|b l2]; [apply Permutation_sym, Permutation_nil in P; discriminate|].
    assert (Hb : In b (a :: l1)).
    { eapply Permutation_in; [apply Permutation_sym; exact P|left; reflexivity]. }
    assert (Ha : In a (b :: l2)).
    { eapply Permutation_in; [exact P|left; reflexivity]. }
    assert (Hab : a = b).
    { apply Hinj; [left; reflexivity|exact Hb|].
      apply key_leb_antisym.
      - apply (sorted_head_least a l1 b S1 Hb).
      - apply (sorted_head_least b l2 a S2 Ha). }
    subst b. f_equal. apply IH.
    + inversion S1; assumption.
    + inversion S2; assumption.
    + eapply Permutation_cons_inv; exact P.
    + intros x y Hx Hy. apply Hinj; right; assumption.
Qed.

(** X3.  When eligible records that tie on all three sort columns are the
    same record, the schedule does not depend on the order of the database
    rows: any rearrangement of the database gives the same schedule. *)
Theorem schedule_independent_of_row_order (i : inputs) (db' : list sample) :
  Permutation (svi_database i) db' ->
  (forall a b, In a (scheduler (svi_database i)) ->
               In b (scheduler (svi_database i)) ->
               key_of (classify_row (hotlist i) a)
               = key_of (classify_row (hotlist i) b) -> a = b) ->
  final_schedule (with_database i db') = final_schedule i.
Proof.
  intros P Hinj.
  assert (Hpl : prioritized_list (hotlist i) db'
                = prioritized_list (hotlist i) (svi_database i)).
  { unfold prioritized_list. f_equal. symmetry. apply sorted_perm_unique.
    - apply arrange_sorted.
    - apply arrange_sorted.
    - rewrite !arrange_perm. apply Permutation_map, filter_perm, P.
    - intros a b Ha Hb Hk.
      apply (Permutation_in _ (arrange_perm _)) in Ha, Hb.
      apply in_map_iff in Ha, Hb.
      destruct Ha as (ra & <- & Ha), Hb as (rb & <- & Hb).
      f_equal. apply Hinj; assumption. }
  unfold final_schedule, with_database, do_not_schedule_dates. simpl.
  rewrite Hpl. reflexivity.
Qed.

Lemma schedule_independent_of_row_order_witness :
  final_schedule (with_database example_run example_database_reversed)
  = final_schedule (with_database example_run (scheduler example_database)).
Proof.
  apply (schedule_independent_of_row_order
           (with_database example_run (scheduler example_database))
           example_database_reversed).
  - vm_compute.
    apply perm_trans with
      (l' := [ mkSample "MCW_SVI_0007_UDD" (Some 1) (Some 20089) UDD 0;
               mkSample "MCW_SVI_0004" (Some 1) None Base 0;
               mkSample "MCW_SVI_0001_UIC" (Some 1) (Some 19500) UIC 0;
               mkSample "MCW_SVI_0003" (Some 1) (Some 19000) Base 0 ]).
    + apply perm_skip. apply perm_trans with
        (l' := [ mkSample "MCW_SVI_0003" (Some 1) (Some 19000) Base 0;
                 mkSample "MCW_SVI_0004" (Some 1) None Base 0;
                 mkSample "MCW_SVI_0001_UIC" (Some 1) (Some 19500) UIC 0 ]).
      * apply perm_skip, perm_swap.
      * apply perm_trans with
          (l' := [ mkSample "MCW_SVI_0004" (Some 1) None Base 0;
                   mkSample "MCW_SVI_0003" (Some 1) (Some 19000) Base 0;
                   mkSample "MCW_SVI_0001_UIC" (Some 1) (Some 19500) UIC 0 ]).
        -- apply perm_swap.
        -- apply perm_skip, perm_swap.
    + apply perm_trans with
        (l' := [ mkSample "MCW_SVI_0004" (Some 1) None Base 0;
                 mkSample "MCW_SVI_0007_UDD" (Some 1) (Some 20089) UDD 0;
                 mkSample "MCW_SVI_0001_UIC" (Some 1) (Some 19500) UIC 0;
                 mkSample "MCW_SVI_0003" (Some 1) (Some 19000) Base 0 ]).
      * apply perm_swap.
      * apply perm_skip. apply perm_trans with
          (l' := [ mkSample "MCW_SVI_0001_UIC" (Some 1) (Some 19500) UIC 0;
                   mkSample "MCW_SVI_0007_UDD" (Some 1) (Some 20089) UDD 0;
                   mkSample "MCW_SVI_0003" (Some 1) (Some 19000) Base 0 ]).
        -- apply perm_swap.
        -- apply perm_skip, perm_swap.
  - intros a b Ha Hb. simpl in Ha, Hb.
    repeat match goal with
           | H : _ \/ _ |- _ => destruct H
           | H : False |- _ => destruct H
           end; subst; intros Hk; try reflexivity; vm_compute in Hk; discriminate.
Defined.

Lemma arrange_sorted_id (l : list classified) :
  StronglySorted row_le l -> arrange l = l.
Proof.
  induction 1 as [|x l Hs IH Hx]; simpl; [reflexivity|].
  rewrite IH. destruct l as [|y l']; [reflexivity|].
  simpl. inversion Hx as [|? ? Hxy _]; subst.
  unfold row_le in Hxy. rewrite Hxy. reflexivity.
Qed.

(** X4.  A database whose eligible records are already in ascending order
    of (tier, date received, identifier number) is scheduled in database
    order: the sort leaves an ordered table as it is. *)
Theorem ordered_database_keeps_its_order (i : inputs) :
  StronglySorted composite_le
    (map (classify_row (hotlist i)) (scheduler (svi_database i))) ->
  exists s, final_schedule i = Some s /\
            map sample_of s = scheduler (svi_database i).
Proof.
  intros Hs. destruct (final_schedule_columns i) as (s & E & _).
  exists s. split; [exact E|]. unfold sample_of.
  rewrite <- (map_map (fun e => p_row (s_row e)) c_sample), (schedule_rows i s E).
  rewrite arrange_sorted_id.
  - rewrite map_map. erewrite map_ext; [apply map_id|].
    intros r. apply classify_row_sample.
  - eapply sorted_weaken; [|exact Hs]. intros a b. apply row_le_composite.
Qed.

Lemma ordered_database_keeps_its_order_witness :
  exists s, final_schedule ordered_run = Some s /\
            map sample_of s = scheduler (svi_database ordered_run).
Proof.
  apply (ordered_database_keeps_its_order ordered_run).
  eapply sorted_weaken; [intros a b; apply row_le_composite|].
  repeat constructor.
Defined.

(** ** The calendar, continued *)

Lemma no_meeting_day_before_next (c d : Z) :
  is_meeting_day c -> is_meeting_day d -> c < d -> next_date c <= d.
Proof. intros Hc Hd Hlt. calendar_arith. Qed.

Lemma generate_dates_complete (n : nat) (c0 c d : Z) :
  is_meeting_day c0 -> In c (generate_dates n c0) ->
  is_meeting_day d -> c0 <= d <= c -> In d (generate_dates n c0).
Proof.
  revert c0. induction n as [|n IH]; intros c0 H0 Hc Hd Hr; [destruct Hc|].
  simpl in *. destruct (Z.eq_dec c0 d) as [->|Hne]; [left; reflexivity|right].
  assert (Hnext : next_date c0 <= d)
    by (apply no_meeting_day_before_next; [assumption..|lia]).
  destruct Hc as [<-|Hc]; [lia|].
  apply IH; [apply next_date_is_meeting_day, H0|exact Hc|exact Hd|lia].
Qed.

Lemma first_meeting_least (t d : Z) :
  is_meeting_day d -> t < d -> first_meeting t <= d.
Proof.
  intros Hd Ht. destruct (Z_lt_le_dec d (first_meeting t)) as [L|L]; [|exact L].
  exfalso. apply (first_meeting_earliest t d); [lia|exact Hd].
Qed.

(** Every meeting day between the start and a surviving date is itself a
    surviving date unless it is excluded. *)
Lemma final_meeting_dates_complete (n : nat) (t : Z) (skip : list Z) (c d : Z) :
  In c (final_meeting_dates n t skip) ->
  is_meeting_day d -> t < d <= c -> ~ In d skip ->
  In d (final_meeting_dates n t skip).
Proof.
  unfold final_meeting_dates, potential_dates. rewrite !filter_In.
  intros [Hc _] Hd Hr Hs. split.
  - eapply generate_dates_complete; [apply first_meeting_is_meeting_day|exact Hc|exact Hd|].
    split; [apply first_meeting_least; [exact Hd|lia]|lia].
  - destruct (Str.in_dates d skip) eqn:E; [|reflexivity].
    apply in_dates_In in E. contradiction.
Qed.

(** X5.  No free slot is left before a scheduled meeting: if an entry meets
    on day [d], every Tuesday or Friday after the start date and before [d]
    that is not excluded is the meeting date of an entry of smaller rank. *)
Theorem no_free_slot_before_a_meeting (i : inputs) :
  exists s, final_schedule i = Some s /\
    forall e d d', In e s -> meeting_date e = Some d ->
      is_meeting_day d' -> today (Sys_Date i) < d' < d ->
      ~ In d' (do_not_schedule_dates i) ->
      exists e', In e' s /\ meeting_date e' = Some d' /\
                 (rank_of e' < rank_of e)%nat.
Proof.
  destruct (final_schedule_columns i) as (s & E & _).
  exists s. split; [exact E|]. intros e d d' He Hd Hm Hr Hx.
  apply In_nth_error in He. destruct He as (k & Hk).
  destruct (final_schedule_row i s k e E Hk) as (Rk & Dk & Lk).
  rewrite Dk in Hd.
  assert (Hin : In d' (run_dates i)).
  { eapply final_meeting_dates_complete;
      [eapply nth_error_In; exact Hd|exact Hm|lia|exact Hx]. }
  apply In_nth_error in Hin. destruct Hin as (j & Hj).
  assert (Hjk : (j < k)%nat).
  { destruct (Nat.lt_total j k) as [L|[L|L]]; [exact L| |].
    - subst j. rewrite Hj in Hd. injection Hd as ->. lia.
    - pose proof (sorted_nth_lt _ (final_meeting_dates_increasing _ _ _)
                    k j d d' Hd Hj L). lia. }
  destruct (nth_error s j) as [e'|] eqn:Ej.
  - exists e'. destruct (final_schedule_row i s j e' E Ej) as (Rj & Dj & _).
    split; [eapply nth_error_In; exact Ej|]. split; [congruence|lia].
  - apply nth_error_None in Ej. rewrite (final_schedule_length i s E) in Ej. lia.
Qed.

Lemma no_free_slot_before_a_meeting_witness :
  exists s, final_schedule example_run = Some s /\
    forall e, In e s -> meeting_date e = Some 20410 ->
      exists e', In e' s /\ meeting_date e' = Some 20406 /\
                 (rank_of e' < rank_of e)%nat.
Proof.
  destruct (no_free_slot_before_a_meeting example_run) as (s & E & H).
  exists s. split; [exact E|]. intros e He Hd.
  apply (H e 20410 20406 He Hd).
  - right. reflexivity.
  - vm_compute. split; reflexivity.
  - vm_compute. intros [H1|[H1|[H1|[H1|[H1|[]]]]]]; discriminate.
Defined.

(** X6.  The candidates repeat weekly: each candidate is followed two
    places later by the same weekday of the next week. *)
Theorem candidates_repeat_weekly (num_meetings : nat) (t : Z) (k : nat) (d d' : Z) :
  nth_error (potential_dates num_meetings t) k = Some d ->
  nth_error (potential_dates num_meetings t) (S (S k)) = Some d' ->
  d' = d + 7 /\ Calendar.wday d' = Calendar.wday d.
Proof.
  intros Hd Hd'. unfold potential_dates in *.
  destruct (nth_error (generate_dates (num_meetings + 40) (first_meeting t)) (S k))
    as [m|] eqn:Em.
  - assert (Hm : is_meeting_day d).
    { pose proof (generate_dates_meeting_days (num_meetings + 40) _
                    (first_meeting_is_meeting_day t)) as HF.
      rewrite Forall_forall in HF. apply HF. eapply nth_error_In. exact Hd. }
    rewrite (generate_dates_step _ _ _ _ _ Em Hd'),
            (generate_dates_step _ _ _ _ _ Hd Em).
    clear - Hm. calendar_arith.
  - apply nth_error_None in Em.
    assert (S (S k) < List.length (generate_dates (num_meetings + 40) (first_meeting t)))%nat
      by (apply nth_error_Some; congruence). lia.
Qed.

Lemma candidates_repeat_weekly_witness :
  20403 = 20396 + 7 /\ Calendar.wday 20403 = Calendar.wday 20396.
Proof.
  apply (candidates_repeat_weekly 4 20394 0 20396 20403); reflexivity.
Defined.

(** ** Changing the exclusion list *)

Lemma filter_weaker_nth (f f' : Z -> bool) (l : list Z) :
  StronglySorted Z.lt l -> (forall x, f' x = true -> f x = true) ->
  forall k d', nth_error (filter f' l) k = Some d' ->
    exists d, nth_error (filter f l) k = Some d /\ d <= d'.
Proof.
  intros Hs Hsub. induction Hs as [|a l Hs IH Ha]; intros k d' Hk.
  - destruct k; discriminate.
  - simpl in *. destruct (f' a) eqn:F'.
    + rewrite (Hsub a F'). destruct k as [|k]; simpl in *.
      * exists a. injection Hk as <-. split; [reflexivity|lia].
      * apply IH, Hk.
    + destruct (f a) eqn:F; [|apply IH, Hk].
      destruct k as [|k]; simpl.
      * exists a. split; [reflexivity|].
        apply nth_error_In, filter_In in Hk. destruct Hk as [Hin _].
        rewrite Forall_forall in Ha. apply Ha in Hin. lia.
      * destruct (IH (S k) d' Hk) as (d & Hd & Hle).
        destruct (nth_error (filter f l) k) as [d0|] eqn:E0.
        -- exists d0. split; [reflexivity|].
           pose proof (sorted_nth_lt _ (sorted_filter f l Hs) k (S k) d0 d E0 Hd).
           lia.
        -- apply nth_error_None in E0.
           assert (S k < List.length (filter f l))%nat
             by (apply nth_error_Some; congruence). lia.
Qed.

Lemma in_dates_app (d : Z) (l l' : list Z) :
  Str.in_dates d (l ++ l') = Str.in_dates d l || Str.in_dates d l'.
Proof. apply existsb_app. Qed.

Lemma with_more_canceled_rows (i : inputs) (more : list Z) :
  prioritized_list (hotlist (with_more_canceled i more))
                   (svi_database (with_more_canceled i more))
  = prioritized_list (hotlist i) (svi_database i).
Proof. reflexivity. Qed.

(** X7.  Cancelling further meetings never brings a meeting forward: the
    rows of the schedule stay the same, and an entry that still has a date
    had one before, the same or an earlier one. *)
Theorem more_cancellations_never_advance_a_meeting (i : inputs) (more : list Z) :
  exists s s', final_schedule i = Some s /\
    final_schedule (with_more_canceled i more) = Some s' /\
    map s_row s' = map s_row s /\
    forall k e e' d', nth_error s k = Some e -> nth_error s' k = Some e' ->
      meeting_date e' = Some d' ->
      exists d, meeting_date e = Some d /\ d <= d'.
Proof.
  destruct (final_schedule_columns i) as (s & E & Hr & _).
  destruct (final_schedule_columns (with_more_canceled i more)) as (s' & E' & Hr' & _).
  exists s, s'. split; [exact E|]. split; [exact E'|].
  split; [rewrite Hr, Hr'; apply with_more_canceled_rows|].
  intros k e e' d' Hk Hk' Hd'.
  destruct (final_schedule_row i s k e E Hk) as (_ & D & _).
  destruct (final_schedule_row _ s' k e' E' Hk') as (_ & D' & _).
  rewrite D' in Hd'. rewrite D.
  unfold run_dates, final_meeting_dates in *. simpl in Hd'.
  eapply filter_weaker_nth; [apply generate_dates_increasing| |exact Hd'].
  intros x Hx. unfold do_not_schedule_dates in *. simpl in Hx.
  rewrite <- app_assoc, in_dates_app in Hx.
  destruct (Str.in_dates x more); [discriminate|exact Hx].
Qed.

(** X8.  No meeting is set before the day of the run; and when the day of
    the run is itself a Tuesday or Friday that is not excluded, the entry of
    rank 1 meets on that very day. *)
Theorem no_meeting_before_the_run_date (i : inputs) :
  exists s, final_schedule i = Some s /\
    (forall e d, In e s -> meeting_date e = Some d -> Sys_Date i <= d) /\
    (is_meeting_day (Sys_Date i) ->
     ~ In (Sys_Date i) (do_not_schedule_dates i) ->
     forall e, In e s -> rank_of e = 1%nat ->
       meeting_date e = Some (Sys_Date i)).
Proof.
  destruct (final_schedule_columns i) as (s & E & _).
  exists s. split; [exact E|]. split.
  - intros e d He Hd. apply In_nth_error in He. destruct He as (k & Hk).
    destruct (final_schedule_row i s k e E Hk) as (_ & D & _).
    rewrite D in Hd. apply nth_error_In, final_meeting_dates_valid in Hd.
    unfold today in Hd. lia.
  - intros Hm Hx e He Hr. apply In_nth_error in He. destruct He as (k & Hk).
    destruct (final_schedule_row i s k e E Hk) as (R & D & _).
    assert (k = 0%nat) by lia. subst k. rewrite D.
    assert (Hf : first_meeting (today (Sys_Date i)) = Sys_Date i).
    { pose proof (first_meeting_after (today (Sys_Date i))) as Ha.
      pose proof (first_meeting_least (today (Sys_Date i)) (Sys_Date i) Hm) as Hl.
      unfold today in *. lia. }
    unfold run_dates, final_meeting_dates, potential_dates.
    replace (List.length (scheduler (svi_database i)) + 40)%nat
      with (S (List.length (scheduler (svi_database i)) + 39)) by lia.
    simpl. rewrite Hf.
    destruct (Str.in_dates (Sys_Date i) (do_not_schedule_dates i)) eqn:Ex.
    + apply in_dates_In in Ex. contradiction.
    + reflexivity.
Qed.

(** X9.  Cancelled dates that are not Tuesdays or Fridays, or that lie
    before the day of the run, have no effect on the schedule. *)
Theorem cancellations_off_the_calendar_change_nothing (i : inputs)
    (more : list Z) :
  (forall d, In d more -> ~ is_meeting_day d \/ d < Sys_Date i) ->
  final_schedule (with_more_canceled i more) = final_schedule i.
Proof.
  intros Hoff. unfold final_schedule. rewrite with_more_canceled_rows.
  f_equal. f_equal. unfold final_meeting_dates. apply filter_ext_on.
  intros x Hx. f_equal. unfold do_not_schedule_dates. simpl.
  rewrite <- app_assoc, in_dates_app.
  destruct (Str.in_dates x more) eqn:Ex; [|reflexivity].
  exfalso. apply in_dates_In in Ex.
  assert (Hv : is_meeting_day x /\ today (Sys_Date i) < x).
  { pose proof (final_meeting_dates_valid
                  (List.length (prioritized_list (hotlist i) (svi_database i)))
                  (today (Sys_Date i)) [] x) as Hv.
    unfold final_meeting_dates in Hv. simpl in Hv.
    rewrite filter_In in Hv. destruct Hv as (A & _ & B); auto. }
  destruct (Hoff x Ex) as [H|H]; [tauto|]. unfold today in Hv. lia.
Qed.

Lemma cancellations_off_the_calendar_change_nothing_witness :
  final_schedule (with_more_canceled example_run [20397; 20300])
  = final_schedule example_run.
Proof.
  apply (cancellations_off_the_calendar_change_nothing example_run [20397; 20300]).
  intros d [<-|[<-|[]]].
  - left. intros [H|H]; vm_compute in H; discriminate.
  - right. reflexivity.
Defined.

(** ** The number taken from an identifier *)

Lemma take_digits_split (s : string) :
  exists post, s = (string_of_list_ascii (Str.take_digits s) ++ post)%string /\
               Forall (fun c => Str.is_digit c = true) (Str.take_digits s) /\
               no_leading_digit post.
Proof.
  induction s as [|c s IH]; simpl.
  - exists EmptyString. repeat split. constructor.
  - destruct (Str.is_digit c) eqn:E.
    + destruct IH as (post & Hs & Hd & Hp). exists post. simpl.
      split; [congruence|]. split; [constructor; assumption|exact Hp].
    + exists (String c s). simpl. repeat split; [constructor|exact E].
Qed.

Lemma take_digits_run (ds : list ascii) (post : string) :
  Forall (fun c => Str.is_digit c = true) ds -> no_leading_digit post ->
  Str.take_digits (string_of_list_ascii ds ++ post) = ds.
Proof.
  intros Hd Hp. induction Hd as [|c ds Hc _ IH]; simpl.
  - destruct post as [|c post]; [reflexivity|]. simpl in *. rewrite Hp. reflexivity.
  - rewrite Hc, IH. reflexivity.
Qed.

Lemma str_extract_digits_none (s : string) :
  Str.str_extract_digits s = None <-> digit_free s.
Proof.
  unfold digit_free. induction s as [|c s IH]; simpl.
  - split; [constructor|reflexivity].
  - destruct (Str.is_digit c) eqn:E.
    + split; [discriminate|]. intros H. inversion H; congruence.
    + rewrite IH. split.
      * intros H. constructor; assumption.
      * intros H. inversion H; assumption.
Qed.

Lemma str_extract_digits_run (pre : string) (ds : list ascii) (post : string) :
  digit_free pre -> ds <> [] ->
  Forall (fun c => Str.is_digit c = true) ds -> no_leading_digit post ->
  Str.str_extract_digits (pre ++ string_of_list_ascii ds ++ post) = Some ds.
Proof.
  unfold digit_free. intros Hpre Hne Hd Hp.
  induction pre as [|c pre IH]; simpl in *.
  - destruct ds as [|d ds]; [congruence|]. simpl.
    inversion Hd as [|? ? Hd1 Hd2]; subst. rewrite Hd1.
    rewrite take_digits_run; [reflexivity|assumption..].
  - inversion Hpre as [|? ? Hc Hrest]; subst. rewrite Hc. apply IH, Hrest.
Qed.

Lemma str_extract_digits_some (s : string) (ds : list ascii) :
  Str.str_extract_digits s = Some ds ->
  ds <> [] /\ Forall (fun c => Str.is_digit c = true) ds /\
  exists pre post, s = (pre ++ string_of_list_ascii ds ++ post)%string /\
                   digit_free pre /\ no_leading_digit post.
Proof.
  unfold digit_free. induction s as [|c s IH]; simpl; [discriminate|].
  destruct (Str.is_digit c) eqn:E.
  - intros H. injection H as <-.
    destruct (take_digits_split s) as (post & Hs & Hd & Hp).
    split; [discriminate|]. split; [constructor; assumption|].
    exists EmptyString, post. simpl. split; [congruence|]. split; [constructor|exact Hp].
  - intros H. destruct (IH H) as (Hne & Hd & pre & post & Hs & Hpre & Hp).
    split; [exact Hne|]. split; [exact Hd|].
    exists (String c pre), post. simpl. split; [congruence|].
    split; [constructor; assumption|exact Hp].
Qed.

(** X10.  The digits taken from a sample identifier are its first maximal
    run of digits: the result is missing exactly when the identifier holds
    no digit, and otherwise it is the non-empty digit run that follows a
    digit-free prefix and is followed by a non-digit or the end. *)
Theorem first_digit_run_is_extracted (s : string) :
  (Str.str_extract_digits s = None <-> digit_free s) /\
  (forall ds, Str.str_extract_digits s = Some ds <->
     ds <> [] /\ Forall (fun c => Str.is_digit c = true) ds /\
     exists pre post, s = (pre ++ string_of_list_ascii ds ++ post)%string /\
                      digit_free pre /\ no_leading_digit post).
Proof.
  split; [apply str_extract_digits_none|]. intros ds. split.
  - apply str_extract_digits_some.
  - intros (Hne & Hd & pre & post & -> & Hpre & Hp).
    apply str_extract_digits_run; assumption.
Qed.

Lemma as_numeric_uint_acc (u : Decimal.uint) (acc : positive) :
  fold_left numeric_step (list_ascii_of_string (NilEmpty.string_of_uint u))
            (N.pos acc)
  = N.pos (Pos.of_uint_acc u acc).
Proof.
  revert acc.
  induction u; intros acc;
    cbn [NilEmpty.string_of_uint list_ascii_of_string fold_left Pos.of_uint_acc];
    [reflexivity|..];
    rewrite <- IHu; f_equal; unfold numeric_step;
    match goal with
    | |- context [Str.digit_value ?c] =>
        let v := eval vm_compute in (Str.digit_value c) in
        change (Str.digit_value c) with v
    end; lia.
Qed.

Lemma as_numeric_uint (u : Decimal.uint) :
  fold_left numeric_step (list_ascii_of_string (NilEmpty.string_of_uint u)) 0%N
  = N.of_uint u.
Proof.
  unfold N.of_uint.
  induction u;
    cbn [NilEmpty.string_of_uint list_ascii_of_string fold_left Pos.of_uint];
    [reflexivity|exact IHu|..]; apply (as_numeric_uint_acc u).
Qed.

Lemma uint_digits (u : Decimal.uint) :
  Forall (fun c => Str.is_digit c = true)
         (list_ascii_of_string (NilEmpty.string_of_uint u)).
Proof. induction u; simpl; constructor; auto. Qed.

Lemma list_ascii_app (a b : string) :
  list_ascii_of_string (a ++ b) = list_ascii_of_string a ++ list_ascii_of_string b.
Proof. induction a as [|c a IH]; simpl; [reflexivity|rewrite IH; reflexivity]. Qed.

Lemma zeros_digits (k : nat) :
  Forall (fun c => Str.is_digit c = true) (list_ascii_of_string (zeros k)).
Proof. induction k; simpl; constructor; auto. Qed.

Lemma as_numeric_zeros (k : nat) (l : list ascii) :
  fold_left numeric_step (list_ascii_of_string (zeros k) ++ l) 0%N
  = fold_left numeric_step l 0%N.
Proof. induction k as [|k IH]; simpl; [reflexivity|exact IH]. Qed.

Lemma decimal_not_empty (n : N) : list_ascii_of_string (decimal n) <> [].
Proof.
  unfold decimal. destruct n as [|p]; [discriminate|]. simpl.
  intros H. apply (f_equal string_of_list_ascii) in H.
  rewrite string_of_list_ascii_of_string in H. simpl in H.
  pose proof (DecimalPos.Unsigned.to_uint_nonnil p) as Hn.
  destruct (Pos.to_uint p); simpl in H; try discriminate. congruence.
Qed.

Lemma to_double_exact (n : N) :
  (n <= 9007199254740992)%N -> Str.to_double n = n.
Proof.
  intros H. unfold Str.to_double.
  destruct (N.ltb_spec n 9007199254740992) as [L|L]; [reflexivity|].
  assert (n = 9007199254740992%N) by lia. subst n. reflexivity.
Qed.

Lemma digits_value_numeral (k : nat) (n : N) :
  Str.digits_value (list_ascii_of_string (zeros k ++ decimal n)) = n.
Proof.
  unfold Str.digits_value. fold numeric_step.
  rewrite list_ascii_app, as_numeric_zeros. unfold decimal.
  rewrite as_numeric_uint. apply DecimalN.Unsigned.of_to.
Qed.

(** X11.  A sample identifier made of a digit-free prefix, a decimal number
    [n] with any number of leading zeros, and a rest that does not start
    with a digit gets as its third sort key the double nearest to [n]:
    [n] itself whenever [n] is at most 2^53. *)
Theorem number_in_identifier_is_recovered (hot : list string) (r : sample)
    (pre : string) (k : nat) (n : N) (post : string) :
  Sample_ID r = (pre ++ (zeros k ++ decimal n) ++ post)%string ->
  digit_free pre -> no_leading_digit post ->
  sample_id_num (classify_row hot r) = Some (Str.to_double n) /\
  ((n <= 9007199254740992)%N -> sample_id_num (classify_row hot r) = Some n).
Proof.
  intros Hid Hpre Hpost.
  assert (H : sample_id_num (classify_row hot r) = Some (Str.to_double n)).
  { unfold classify_row, add_keys. simpl. rewrite Hid.
    rewrite <- (string_of_list_ascii_of_string (zeros k ++ decimal n)).
    rewrite str_extract_digits_run; try assumption.
    - simpl. unfold Str.as_numeric. rewrite digits_value_numeral. reflexivity.
    - rewrite list_ascii_app. intros H. apply app_eq_nil in H.
      destruct H as [_ H]. apply (decimal_not_empty n H).
    - rewrite list_ascii_app. apply Forall_app. split; [apply zeros_digits|].
      apply uint_digits. }
  split; [exact H|]. intros Hn. rewrite H, to_double_exact by exact Hn.
  reflexivity.
Qed.

Lemma number_in_identifier_is_recovered_witness :
  sample_id_num
    (classify_row [] (mkSample "MCW_SVI_0123_UDD" (Some 1) (Some 20089) UDD 0))
  = Some 123%N.
Proof.
  refine (proj2 (number_in_identifier_is_recovered [] _ "MCW_SVI_" 1 123 "_UDD"
                   _ _ _) _).
  - reflexivity.
  - repeat constructor.
  - reflexivity.
  - vm_compute. discriminate.
Defined.

(** ** Columns derived from the sample identifier and the listings *)

Lemma string_length_app (a b : string) :
  String.length (a ++ b) = (String.length a + String.length b)%nat.
Proof. induction a as [|c a IH]; simpl; [reflexivity|rewrite IH; reflexivity]. Qed.

Lemma string_app_assoc (a b c : string) :
  (a ++ (b ++ c))%string = ((a ++ b) ++ c)%string.
Proof. induction a as [|x a IH]; simpl; [reflexivity|rewrite IH; reflexivity]. Qed.

Lemma append_same_length (p1 p2 a b : string) :
  (p1 ++ a = p2 ++ b)%string -> String.length a = String.length b -> a = b.
Proof.
  revert p2. induction p1 as [|c p1 IH]; intros p2 H L.
  - destruct p2 as [|c2 p2]; [exact H|]. simpl in H. subst a.
    simpl in L. rewrite string_length_app in L. lia.
  - destruct p2 as [|c2 p2].
    + simpl in H. subst b. simpl in L. rewrite string_length_app in L. lia.
    + simpl in H. injection H as _ H. eapply IH; eassumption.
Qed.

Lemma ends_with_spec (suffix s : string) :
  Ingest.ends_with suffix s = true <-> exists pre, s = (pre ++ suffix)%string.
Proof.
  induction s as [|c s IH]; simpl.
  - rewrite String.eqb_eq. split.
    + intros ->. exists EmptyString. reflexivity.
    + intros (pre & H). destruct pre; [simpl in H; congruence|discriminate].
  - rewrite orb_true_iff, String.eqb_eq, IH. split.
    + intros [->|(pre & ->)].
      * exists EmptyString. reflexivity.
      * exists (String c pre). reflexivity.
    + intros (pre & H). destruct pre as [|c' pre]; simpl in H.
      * left. congruence.
      * right. injection H as _ H. exists pre. exact H.
Qed.

(** X12.  The identifier class follows the end of the sample identifier:
    UIC exactly when it ends in [_UIC], UDD exactly when it ends in [_UDD],
    Base in every other case. *)
Theorem identifier_class_follows_suffix (Sample_ID : string) :
  (Ingest.Identifier_of Sample_ID = UIC <->
     exists pre, Sample_ID = (pre ++ "_UIC")%string) /\
  (Ingest.Identifier_of Sample_ID = UDD <->
     exists pre, Sample_ID = (pre ++ "_UDD")%string) /\
  (Ingest.Identifier_of Sample_ID = Base <->
     (forall pre, Sample_ID <> (pre ++ "_UIC")%string) /\
     (forall pre, Sample_ID <> (pre ++ "_UDD")%string)).
Proof.
  unfold Ingest.Identifier_of.
  pose proof (ends_with_spec "_UIC" Sample_ID) as HI.
  pose proof (ends_with_spec "_UDD" Sample_ID) as HD.
  assert (Hex : ~ ((exists pre, Sample_ID = (pre ++ "_UIC")%string) /\
                   (exists pre, Sample_ID = (pre ++ "_UDD")%string))).
  { intros [(p1 & H1) (p2 & H2)]. rewrite H1 in H2.
    apply append_same_length in H2; [discriminate|reflexivity]. }
  assert (HnI : ~ (exists pre, Sample_ID = (pre ++ "_UIC")%string) <->
                forall pre, Sample_ID <> (pre ++ "_UIC")%string).
  { split; [intros H pre E; apply H; eauto|intros H (pre & E); exact (H pre E)]. }
  assert (HnD : ~ (exists pre, Sample_ID = (pre ++ "_UDD")%string) <->
                forall pre, Sample_ID <> (pre ++ "_UDD")%string).
  { split; [intros H pre E; apply H; eauto|intros H (pre & E); exact (H pre E)]. }
  rewrite <- HnI, <- HnD, <- HI, <- HD in *. clear HnI HnD HI HD.
  destruct (Ingest.ends_with "_UIC" Sample_ID), (Ingest.ends_with "_UDD" Sample_ID);
    try (exfalso; apply Hex; split; reflexivity);
    (split; [|split]); split; try discriminate; try tauto; try reflexivity;
    intuition discriminate.
Qed.

Lemma four_digits_spec (s d : string) :
  Ingest.four_digits s = Some d <->
  is_four_digits d /\ exists rest, s = (d ++ rest)%string.
Proof.
  unfold is_four_digits. split.
  - destruct s as [|a [|b [|c [|e rest]]]]; simpl; try discriminate.
    destruct (Str.is_digit a) eqn:A, (Str.is_digit b) eqn:B,
      (Str.is_digit c) eqn:C, (Str.is_digit e) eqn:E; simpl; try discriminate.
    intros H. injection H as <-. simpl. split.
    + split; [reflexivity|]. repeat constructor; assumption.
    + exists rest. reflexivity.
  - intros ([L F] & rest & ->).
    destruct d as [|a [|b [|c [|e [|x d]]]]]; simpl in L; try discriminate.
    simpl in F. inversion F as [|? ? A F1]; subst.
    inversion F1 as [|? ? B F2]; subst. inversion F2 as [|? ? C F3]; subst.
    inversion F3 as [|? ? E _]; subst. simpl. rewrite A, B, C, E. reflexivity.
Qed.

Lemma svi_id_here_spec (s d : string) :
  Ingest.svi_id_here s = Some d <->
  is_four_digits d /\
  exists rest, s = ("SVI-" ++ d ++ rest)%string \/ s = ("SVI_" ++ d ++ rest)%string.
Proof.
  split.
  - destruct s as [|a [|b [|c [|sep rest]]]]; simpl; try discriminate;
      try (destruct a as [[] [] [] [] [] [] [] []]; discriminate).
    + destruct a as [[] [] [] [] [] [] [] []]; try discriminate.
      destruct b as [[] [] [] [] [] [] [] []]; discriminate.
    + destruct a as [[] [] [] [] [] [] [] []]; try discriminate.
      destruct b as [[] [] [] [] [] [] [] []]; try discriminate.
      destruct c as [[] [] [] [] [] [] [] []]; discriminate.
    + destruct a as [[] [] [] [] [] [] [] []]; try discriminate.
      destruct b as [[] [] [] [] [] [] [] []]; try discriminate.
      destruct c as [[] [] [] [] [] [] [] []]; try discriminate.
      destruct (Ascii.eqb_spec sep "-") as [->|N1]; simpl.
      * intros H. apply four_digits_spec in H. destruct H as (F & r & ->).
        split; [exact F|]. exists r. left. reflexivity.
      * destruct (Ascii.eqb_spec sep "_") as [->|N2]; [|discriminate].
        intros H. apply four_digits_spec in H. destruct H as (F & r & ->).
        split; [exact F|]. exists r. right. reflexivity.
  - intros (F & rest & [->| ->]); simpl; apply four_digits_spec; eauto.
Qed.

Lemma str_extract_all_svi_spec (s d : string) :
  In d (Ingest.str_extract_all_svi s) <->
  is_four_digits d /\
  (occurs_in ("SVI-" ++ d) s \/ occurs_in ("SVI_" ++ d) s).
Proof.
  unfold occurs_in. induction s as [|c s IH].
  - simpl. split; [tauto|]. intros (_ & [(pre & post & H)|(pre & post & H)]);
      destruct pre; discriminate.
  - assert (Hstep : In d (Ingest.str_extract_all_svi (String c s)) <->
                    Ingest.svi_id_here (String c s) = Some d \/
                    In d (Ingest.str_extract_all_svi s)).
    { cbn [Ingest.str_extract_all_svi].
      destruct (Ingest.svi_id_here (String c s)) as [d0|]; simpl.
      - split; [intros [->|H]; auto|intros [H|H]; [left; congruence|auto]].
      - split; [auto|intros [H|H]; [discriminate|exact H]]. }
    rewrite Hstep, IH, svi_id_here_spec. clear Hstep IH. split.
    + intros [(F & rest & [H|H])|(F & [(pre & post & H)|(pre & post & H)])];
        (split; [exact F|]).
      * left. exists EmptyString, rest. rewrite H. reflexivity.
      * right. exists EmptyString, rest. rewrite H. reflexivity.
      * left. exists (String c pre), post. rewrite H. reflexivity.
      * right. exists (String c pre), post. rewrite H. reflexivity.
    + intros (F & [(pre & post & H)|(pre & post & H)]).
      * destruct pre as [|c' pre].
        -- left. split; [exact F|]. exists post. left. rewrite H. reflexivity.
        -- right. split; [exact F|]. left. exists pre, post.
           injection H as _ H. exact H.
      * destruct pre as [|c' pre].
        -- left. split; [exact F|]. exists post. right. rewrite H. reflexivity.
        -- right. split; [exact F|]. right. exists pre, post.
           injection H as _ H. exact H.
Qed.

Lemma unique_from_In (seen l : list string) (x : string) :
  In x (Ingest.unique_from seen l) <-> In x l /\ ~ In x seen.
Proof.
  revert seen. induction l as [|y l IH]; intros seen; simpl; [tauto|].
  destruct (Str.in_chr y seen) eqn:E.
  - apply in_chr_In in E. rewrite IH. split; [tauto|].
    intros [[->|H] Hn]; tauto.
  - assert (Hy : ~ In y seen) by (rewrite <- in_chr_In; congruence).
    simpl. rewrite IH. simpl. split.
    + intros [->|(H & Hn)]; [tauto|]. split; [tauto|]. tauto.
    + intros [[->|H] Hn]; [tauto|].
      destruct (string_dec y x) as [->|Hne]; [tauto|]. right. tauto.
Qed.

Lemma unique_from_NoDup (seen l : list string) :
  NoDup (Ingest.unique_from seen l).
Proof.
  revert seen. induction l as [|y l IH]; intros seen; simpl; [constructor|].
  destruct (Str.in_chr y seen); [apply IH|]. constructor; [|apply IH].
  rewrite unique_from_In. simpl. tauto.
Qed.

Lemma pptx_ids_In (rclone_pptx : list string) (d : string) :
  In d (Ingest.pptx_ids rclone_pptx) <->
  is_four_digits d /\
  exists line, In line rclone_pptx /\
    (occurs_in ("SVI-" ++ d) line \/ occurs_in ("SVI_" ++ d) line).
Proof.
  unfold Ingest.pptx_ids, Ingest.unique. rewrite unique_from_In, in_flat_map.
  split.
  - intros [(line & Hl & Hd) _]. apply str_extract_all_svi_spec in Hd.
    destruct Hd as [F O]. split; [exact F|]. exists line. auto.
  - intros (F & line & Hl & O). split; [|simpl; tauto].
    exists line. split; [exact Hl|]. apply str_extract_all_svi_spec. auto.
Qed.

(** X13.  The report identifiers are exactly the four-digit numbers that
    directly follow [SVI-] or [SVI_] somewhere in a line of the
    presentation listing, each listed once. *)
Theorem report_ids_are_the_numbers_after_SVI (rclone_pptx : list string) :
  NoDup (Ingest.pptx_ids rclone_pptx) /\
  forall d, In d (Ingest.pptx_ids rclone_pptx) <->
    is_four_digits d /\
    exists line, In line rclone_pptx /\
      (occurs_in ("SVI-" ++ d) line \/ occurs_in ("SVI_" ++ d) line).
Proof.
  split; [apply unique_from_NoDup|]. intros d. apply pptx_ids_In.
Qed.

Lemma str_extract_d4_none (s : string) :
  Ingest.str_extract_d4 s = None <->
  forall d, is_four_digits d -> ~ occurs_in d s.
Proof.
  unfold occurs_in. induction s as [|c s IH].
  - simpl. split; [|reflexivity]. intros _ d [L _] (pre & post & H).
    destruct pre; [|discriminate]. destruct d; [discriminate|discriminate].
  - cbn [Ingest.str_extract_d4].
    destruct (Ingest.four_digits (String c s)) as [d0|] eqn:E.
    + split; [discriminate|]. intros H. exfalso.
      apply four_digits_spec in E. destruct E as (F & rest & Hs).
      apply (H d0 F). exists EmptyString, rest. exact Hs.
    + rewrite IH. split.
      * intros H d F (pre & post & Hs). destruct pre as [|c' pre].
        -- assert (Ingest.four_digits (String c s) = Some d)
             by (apply four_digits_spec; split; [exact F|exists post; exact Hs]).
           congruence.
        -- injection Hs as _ Hs. apply (H d F). eauto.
      * intros H d F (pre & post & Hs). apply (H d F).
        exists (String c pre), post. rewrite Hs. reflexivity.
Qed.

Lemma str_extract_d4_some (s d : string) :
  Ingest.str_extract_d4 s = Some d ->
  is_four_digits d /\
  exists pre post, s = (pre ++ d ++ post)%string /\
    forall pre' d' post', s = (pre' ++ d' ++ post')%string ->
      is_four_digits d' -> (String.length pre <= String.length pre')%nat.
Proof.
  induction s as [|c s IH]; [discriminate|].
  cbn [Ingest.str_extract_d4].
  destruct (Ingest.four_digits (String c s)) as [d0|] eqn:E.
  - intros H. injection H as <-. apply four_digits_spec in E.
    destruct E as (F & rest & Hs). split; [exact F|].
    exists EmptyString, rest. split; [exact Hs|]. intros; simpl; lia.
  - intros H. destruct (IH H) as (F & pre & post & Hs & Hleft).
    split; [exact F|]. exists (String c pre), post.
    split; [rewrite Hs; reflexivity|].
    intros pre' d' post' Hs' F'. destruct pre' as [|c' pre'].
    + assert (Ingest.four_digits (String c s) = Some d')
        by (apply four_digits_spec; split; [exact F'|exists post'; exact Hs']).
      congruence.
    + injection Hs' as _ Hs'. simpl. apply le_n_S. eapply Hleft; eassumption.
Qed.

(** X14.  The four-digit key of a sample identifier is its leftmost run of
    four consecutive digits: it is missing exactly when the identifier holds
    no four digits in a row, and otherwise no such run starts further
    left. *)
Theorem identifier_key_is_leftmost_four_digits (s : string) :
  (Ingest.str_extract_d4 s = None <->
     forall d, is_four_digits d -> ~ occurs_in d s) /\
  (forall d, Ingest.str_extract_d4 s = Some d ->
     is_four_digits d /\
     exists pre post, s = (pre ++ d ++ post)%string /\
       forall pre' d' post', s = (pre' ++ d' ++ post')%string ->
         is_four_digits d' -> (String.length pre <= String.length pre')%nat).
Proof.
  split; [apply str_extract_d4_none|]. intros d. apply str_extract_d4_some.
Qed.

Lemma proband_blue (c : option string) :
  Ingest.proband_of_fill_color c = Some 1 <-> c = Some "FF00B0F0".
Proof.
  unfold Ingest.proband_of_fill_color. destruct c as [c|]; [|split; discriminate].
  destruct (String.eqb_spec c "FF00B0F0") as [->|N]; [tauto|].
  destruct (String.eqb c "FFFF9900"); split; try discriminate;
    intros H; injection H as H; contradiction.
Qed.

(** X15.  A row of the accessioning sheet is eligible for scheduling exactly
    when its identifier cell is filled blue and no line of the presentation
    listing carries the sample's four-digit key right after [SVI-] or
    [SVI_]; an orange or uncoloured cell is never scheduled. *)
Theorem eligible_iff_blue_and_no_presentation (rclone_pptx : list string)
    (a : Ingest.accession_row) :
  eligible (Ingest.scheduler_columns rclone_pptx a) = true <->
  Ingest.a_fill_color a = Some "FF00B0F0" /\
  forall d, Ingest.str_extract_d4 (Ingest.a_Sample_ID a) = Some d ->
    forall line, In line rclone_pptx ->
      ~ occurs_in ("SVI-" ++ d) line /\ ~ occurs_in ("SVI_" ++ d) line.
Proof.
  unfold eligible, Ingest.scheduler_columns. simpl.
  rewrite <- proband_blue.
  destruct (Ingest.proband_of_fill_color (Ingest.a_fill_color a)) as [p|];
    [|split; [discriminate|intros [H _]; discriminate]].
  rewrite andb_true_iff, !Z.eqb_eq. unfold Ingest.report_of.
  destruct (Ingest.str_extract_d4 (Ingest.a_Sample_ID a)) as [d|] eqn:E.
  - pose proof (pptx_ids_In rclone_pptx d) as Hin.
    destruct (Str.in_chr d (Ingest.pptx_ids rclone_pptx)) eqn:I.
    + apply in_chr_In in I. apply Hin in I. destruct I as (_ & line & Hl & O).
      split; [intros [_ H]; discriminate|].
      intros [_ H]. exfalso. destruct (H d eq_refl line Hl). tauto.
    + split.
      * intros [-> _]. split; [reflexivity|]. intros d' Hd' line Hl.
        injection Hd' as <-.
        assert (Hn : ~ In d (Ingest.pptx_ids rclone_pptx))
          by (rewrite <- in_chr_In; congruence).
        apply str_extract_d4_some in E. destruct E as [F _].
        split; intros O; apply Hn, Hin; split; eauto.
      * intros [H _]. injection H as ->. auto.
  - split.
    + intros [-> _]. split; [reflexivity|]. intros d H. discriminate.
    + intros [H _]. injection H as ->. auto.
Qed.

(** * The dashboard's proband chart *)

Lemma get_update (acc : Dashboard.groups) (k k' : string)
    (f : Dashboard.counts -> Dashboard.counts) :
  Dashboard.get (Dashboard.update acc k f) k'
  = if String.eqb k k' then option_map f (Dashboard.get acc k')
    else Dashboard.get acc k'.
Proof.
  induction acc as [|[k0 c] acc IH]; simpl.
  - destruct (String.eqb k k'); reflexivity.
  - destruct (String.eqb_spec k0 k) as [->|N]; simpl.
    + destruct (String.eqb_spec k k') as [->|N']; [reflexivity|reflexivity].
    + destruct (String.eqb_spec k0 k') as [->|N'].
      * destruct (String.eqb_spec k k') as [->|_]; [congruence|reflexivity].
      * exact IH.
Qed.

Lemma get_app_new (acc : Dashboard.groups) (k k' : string) (v : Dashboard.counts) :
  Dashboard.get (acc ++ [(k, v)]) k'
  = match Dashboard.get acc k' with
    | Some c => Some c
    | None => if String.eqb k k' then Some v else None
    end.
Proof.
  induction acc as [|[k0 c] acc IH]; simpl; [reflexivity|].
  destruct (String.eqb k0 k'); [reflexivity|exact IH].
Qed.

Lemma update_keys (acc : Dashboard.groups) (k : string)
    (f : Dashboard.counts -> Dashboard.counts) :
  map fst (Dashboard.update acc k f) = map fst acc.
Proof.
  induction acc as [|[k0 c] acc IH]; simpl; [reflexivity|].
  destruct (String.eqb k0 k); simpl; [reflexivity|rewrite IH; reflexivity].
Qed.

Lemma get_None_keys (acc : Dashboard.groups) (k : string) :
  Dashboard.get acc k = None <-> ~ In k (map fst acc).
Proof.
  induction acc as [|[k0 c] acc IH]; simpl; [tauto|].
  destruct (String.eqb_spec k0 k) as [->|N].
  - split; [discriminate|tauto].
  - rewrite IH. tauto.
Qed.

Lemma get_In (acc : Dashboard.groups) (k : string) (c : Dashboard.counts) :
  NoDup (map fst acc) -> (In (k, c) acc <-> Dashboard.get acc k = Some c).
Proof.
  induction acc as [|[k0 c0] acc IH]; simpl; intros Hnd.
  - split; [tauto|discriminate].
  - inversion Hnd as [|? ? Hn Hnd']; subst.
    destruct (String.eqb_spec k0 k) as [->|N].
    + split.
      * intros [H|H]; [congruence|]. exfalso. apply Hn.
        apply in_map_iff. exists (k, c). auto.
      * intros H. left. congruence.
    + rewrite <- (IH Hnd'). split; [intros [H|H]; [congruence|exact H]|auto].
Qed.

Lemma counted_under_spec (r : Dashboard.row) :
  match Dashboard.counted_under r with
  | Some k => k = Dashboard.or_NA (Dashboard.Identifier r) /\
              k <> "N/A" /\ Dashboard.inherited k = false
  | None => forall acc, Dashboard.reducer acc r = acc
  end.
Proof.
  unfold Dashboard.counted_under, Dashboard.reducer.
  destruct (String.eqb_spec (Dashboard.or_NA (Dashboard.Identifier r)) "N/A") as [E|N];
    simpl; [reflexivity|].
  destruct (Dashboard.inherited _) eqn:I; [reflexivity|]. auto.
Qed.

(** The counters of name [k] before and after the reducer takes a row. *)
Lemma reducer_get (acc : Dashboard.groups) (r : Dashboard.row) (k : string) :
  Dashboard.get (Dashboard.reducer acc r) k
  = match Dashboard.counted_under r with
    | Some k0 =>
        if String.eqb k0 k
        then Some (Dashboard.bump r match Dashboard.get acc k with
                                    | Some c => c
                                    | None => Dashboard.mkCounts 0 0 0
                                    end)
        else Dashboard.get acc k
    | None => Dashboard.get acc k
    end.
Proof.
  pose proof (counted_under_spec r) as Hc.
  destruct (Dashboard.counted_under r) as [k0|] eqn:E; [|rewrite Hc; reflexivity].
  destruct Hc as (Hk & Hna & Hinh). unfold Dashboard.reducer. rewrite <- Hk.
  apply String.eqb_neq in Hna. rewrite Hna, Hinh. unfold Dashboard.bump.
  set (acc1 := match Dashboard.get acc k0 with
               | Some _ => acc
               | None => acc ++ [(k0, Dashboard.mkCounts 0 0 0)]
               end).
  assert (H1 : Dashboard.get acc1 k
               = if String.eqb k0 k
                 then Some match Dashboard.get acc k with
                           | Some c => c
                           | None => Dashboard.mkCounts 0 0 0
                           end
                 else Dashboard.get acc k).
  { unfold acc1. destruct (String.eqb_spec k0 k) as [->|N].
    - destruct (Dashboard.get acc k) eqn:G; [exact G|].
      rewrite get_app_new, G, String.eqb_refl. reflexivity.
    - destruct (Dashboard.get acc k0); [reflexivity|].
      rewrite get_app_new. apply String.eqb_neq in N. rewrite N.
      destruct (Dashboard.get acc k); reflexivity. }
  destruct (Dashboard.strict_eq (Dashboard.report r) "1");
    [|destruct (Dashboard.strict_eq (Dashboard.geneyx_uploaded r) "1")];
    rewrite ?get_update, H1; destruct (String.eqb k0 k); reflexivity.
Qed.

Lemma reducer_keys (acc : Dashboard.groups) (r : Dashboard.row) :
  NoDup (map fst acc) ->
  Forall (fun k => k <> "N/A") (map fst acc) ->
  NoDup (map fst (Dashboard.reducer acc r)) /\
  Forall (fun k => k <> "N/A") (map fst (Dashboard.reducer acc r)).
Proof.
  intros Hnd Hna. pose proof (counted_under_spec r) as Hc.
  destruct (Dashboard.counted_under r) as [k0|] eqn:E; [|rewrite Hc; auto].
  destruct Hc as (Hk & Hn & Hinh). unfold Dashboard.reducer. rewrite <- Hk.
  apply String.eqb_neq in Hn. rewrite Hn, Hinh. apply String.eqb_neq in Hn.
  set (acc1 := match Dashboard.get acc k0 with
               | Some _ => acc
               | None => acc ++ [(k0, Dashboard.mkCounts 0 0 0)]
               end).
  assert (H1 : NoDup (map fst acc1) /\ Forall (fun k => k <> "N/A") (map fst acc1)).
  { unfold acc1. destruct (Dashboard.get acc k0) eqn:G; [auto|].
    rewrite map_app. simpl. split.
    - apply get_None_keys in G. apply NoDup_app_remove_l with (l := []). simpl.
      apply Permutation_NoDup with (l := k0 :: map fst acc);
        [apply Permutation_cons_append|constructor; assumption].
    - apply Forall_app. split; [exact Hna|]. constructor; [exact Hn|constructor]. }
  destruct (Dashboard.strict_eq (Dashboard.report r) "1");
    [|destruct (Dashboard.strict_eq (Dashboard.geneyx_uploaded r) "1")];
    rewrite ?update_keys; exact H1.
Qed.

Lemma fold_reducer_keys (l : list Dashboard.row) (acc : Dashboard.groups) :
  NoDup (map fst acc) ->
  Forall (fun k => k <> "N/A") (map fst acc) ->
  NoDup (map fst (fold_left Dashboard.reducer l acc)) /\
  Forall (fun k => k <> "N/A") (map fst (fold_left Dashboard.reducer l acc)).
Proof.
  revert acc. induction l as [|r l IH]; intros acc Hnd Hna; simpl; [auto|].
  destruct (reducer_keys acc r Hnd Hna) as [A B]. apply IH; assumption.
Qed.

Lemma counters_after_fold (l : list Dashboard.row) (acc : Dashboard.groups)
    (k : string) :
  let sel := filter (fun r => match Dashboard.counted_under r with
                              | Some k' => String.eqb k' k
                              | None => false
                              end) l in
  let n := Dashboard.size sel in
  let nr := Dashboard.size
              (filter (fun r => Dashboard.strict_eq (Dashboard.report r) "1") sel) in
  let na := Dashboard.size
              (filter (fun r => negb (Dashboard.strict_eq (Dashboard.report r) "1")
                                && Dashboard.strict_eq (Dashboard.geneyx_uploaded r) "1")
                      sel) in
  Dashboard.get (fold_left Dashboard.reducer l acc) k
  = match Dashboard.get acc k with
    | Some c => Some (Dashboard.mkCounts (Dashboard.total c + n)
                                         (Dashboard.reported c + nr)
                                         (Dashboard.analyzed c + (nr + na)))
    | None => match sel with
              | [] => None
              | _ => Some (Dashboard.mkCounts n nr (nr + na))
              end
    end.
Proof.
  revert acc. induction l as [|r l IH]; intros acc; cbn zeta.
  - simpl. destruct (Dashboard.get acc k) as [[t rp an]|]; [|reflexivity].
    simpl. unfold Dashboard.size. simpl. repeat f_equal; lia.
  - cbn [fold_left]. cbn zeta in IH. rewrite IH, reducer_get. clear IH.
    cbn [filter].
    destruct (Dashboard.counted_under r) as [k0|]; [|reflexivity].
    destruct (String.eqb k0 k); [|reflexivity].
    unfold Dashboard.bump, Dashboard.size.
    set (sel := filter _ l).
    destruct (Dashboard.get acc k) as [[t rp an]|];
      cbn [filter];
      destruct (Dashboard.strict_eq (Dashboard.report r) "1");
      [|destruct (Dashboard.strict_eq (Dashboard.geneyx_uploaded r) "1")
       | |destruct (Dashboard.strict_eq (Dashboard.geneyx_uploaded r) "1")];
      cbn [negb andb filter Dashboard.add_total Dashboard.add_reported
           Dashboard.add_analyzed Dashboard.total Dashboard.reported
           Dashboard.analyzed List.length];
      f_equal; f_equal; lia.
Qed.

Lemma three_way_split (f g : Dashboard.row -> bool) (l : list Dashboard.row) :
  Dashboard.size l
  = Dashboard.size (filter f l)
    + Dashboard.size (filter (fun r => negb (f r) && g r) l)
    + Dashboard.size (filter (fun r => negb (f r) && negb (g r)) l).
Proof.
  unfold Dashboard.size. induction l as [|r l IH]; [reflexivity|].
  cbn [filter]. destruct (f r), (g r); cbn [negb andb List.length]; lia.
Qed.

Lemma filter_partition_perm {A : Type} (f : A -> bool) (l : list A) :
  Permutation (filter f l ++ filter (fun x => negb (f x)) l) l.
Proof.
  induction l as [|a l IH]; simpl; [constructor|].
  destruct (f a); simpl.
  - constructor. exact IH.
  - apply Permutation_sym, Permutation_cons_app, Permutation_sym, IH.
Qed.

Lemma insert_by_index_perm (e : string * Dashboard.counts) (l : Dashboard.groups) :
  Permutation (Dashboard.insert_by_index e l) (e :: l).
Proof.
  induction l as [|e' l IH]; simpl; [reflexivity|].
  destruct (Dashboard.index_of e <=? Dashboard.index_of e')%N; [reflexivity|].
  rewrite IH. apply perm_swap.
Qed.

Lemma entries_perm (acc : Dashboard.groups) :
  Permutation (Dashboard.entries acc) acc.
Proof.
  unfold Dashboard.entries.
  rewrite <- (filter_partition_perm Dashboard.is_index acc) at 3.
  apply Permutation_app_tail.
  induction (filter Dashboard.is_index acc) as [|e l IH]; simpl; [constructor|].
  rewrite insert_by_index_perm. constructor. exact IH.
Qed.

Lemma groupedData_keys (data : list Dashboard.row) :
  NoDup (map fst (Dashboard.groupedData data)) /\
  Forall (fun k => k <> "N/A") (map fst (Dashboard.groupedData data)).
Proof. apply fold_reducer_keys; constructor. Qed.

Lemma groupedData_get (data : list Dashboard.row) (k : string) :
  Dashboard.get (Dashboard.groupedData data) k
  = match Dashboard.rows_of k data with
    | [] => None
    | _ => Some (Dashboard.mkCounts
                   (Dashboard.size (Dashboard.rows_of k data))
                   (Dashboard.size (Dashboard.reported_rows k data))
                   (Dashboard.size (Dashboard.reported_rows k data)
                    + Dashboard.size (Dashboard.analyzed_only_rows k data)))
    end.
Proof.
  unfold Dashboard.groupedData.
  rewrite (counters_after_fold (Dashboard.probandData data) [] k). reflexivity.
Qed.

Lemma chartData_In (data : list Dashboard.row) (b : Dashboard.bar) :
  In b (Dashboard.chartData data) ->
  exists c, Dashboard.get (Dashboard.groupedData data) (Dashboard.name b) = Some c /\
    Dashboard.Reported b = Dashboard.reported c /\
    Dashboard.Analyzed b = Dashboard.analyzed c - Dashboard.reported c /\
    Dashboard.Pending b = Dashboard.total c - Dashboard.analyzed c.
Proof.
  unfold Dashboard.chartData. destruct data as [|r data]; [intros []|].
  rewrite in_map_iff. intros ([k c] & <- & Hin). simpl. exists c.
  split; [|auto].
  apply get_In; [apply groupedData_keys|].
  eapply Permutation_in; [apply entries_perm|exact Hin].
Qed.

(** X16.  Every bar of the proband chart counts rows: its three segments
    are the numbers of proband rows of that identifier that are reported,
    uploaded for analysis but not reported, and neither; none is negative,
    they add up to the number of proband rows of the identifier, and no bar
    is empty or named [N/A]. *)
Theorem chart_bars_count_proband_rows (data : list Dashboard.row) :
  Forall (fun b =>
            let k := Dashboard.name b in
            k <> "N/A" /\
            Dashboard.Reported b = Dashboard.size (Dashboard.reported_rows k data) /\
            Dashboard.Analyzed b = Dashboard.size (Dashboard.analyzed_only_rows k data) /\
            Dashboard.Pending b = Dashboard.size (Dashboard.pending_rows k data) /\
            Dashboard.Reported b + Dashboard.Analyzed b + Dashboard.Pending b
              = Dashboard.size (Dashboard.rows_of k data) /\
            0 < Dashboard.size (Dashboard.rows_of k data))
         (Dashboard.chartData data).
Proof.
  apply Forall_forall. intros b Hb. cbn zeta.
  destruct (chartData_In data b Hb) as (c & Hg & HR & HA & HP).
  assert (Hna : Dashboard.name b <> "N/A").
  { destruct (groupedData_keys data) as [_ F]. rewrite Forall_forall in F.
    apply F. apply in_map_iff. exists (Dashboard.name b, c). split; [reflexivity|].
    apply get_In; [apply groupedData_keys|exact Hg]. }
  rewrite groupedData_get in Hg.
  assert (Hsplit : Dashboard.size (Dashboard.rows_of (Dashboard.name b) data)
                   = Dashboard.size (Dashboard.reported_rows (Dashboard.name b) data)
                     + Dashboard.size (Dashboard.analyzed_only_rows (Dashboard.name b) data)
                     + Dashboard.size (Dashboard.pending_rows (Dashboard.name b) data))
    by exact (three_way_split _ _ _).
  destruct (Dashboard.rows_of (Dashboard.name b) data) as [|r0 rows] eqn:Er;
    [discriminate|].
  injection Hg as <-.
  cbn [Dashboard.total Dashboard.reported Dashboard.analyzed] in HR, HA, HP.
  assert (Hpos : 0 < Dashboard.size (r0 :: rows))
    by (unfold Dashboard.size; cbn [List.length]; lia).
  repeat split; try assumption; lia.
Qed.

Lemma chart_names_perm (data : list Dashboard.row) :
  Permutation (map Dashboard.name (Dashboard.chartData data))
              (map fst (Dashboard.groupedData data)).
Proof.
  unfold Dashboard.chartData. destruct data as [|r data]; [reflexivity|].
  rewrite map_map. simpl. apply Permutation_map, entries_perm.
Qed.

Lemma chart_names_NoDup (data : list Dashboard.row) :
  NoDup (map Dashboard.name (Dashboard.chartData data)).
Proof.
  eapply Permutation_NoDup; [apply Permutation_sym, chart_names_perm|].
  apply groupedData_keys.
Qed.

Lemma chart_names_In (data : list Dashboard.row) (k : string) :
  In k (map Dashboard.name (Dashboard.chartData data)) <->
  Dashboard.rows_of k data <> [].
Proof.
  split.
  - intros H. apply (Permutation_in _ (chart_names_perm data)) in H.
    intros E. pose proof (groupedData_get data k) as G. rewrite E in G.
    apply get_None_keys in G. contradiction.
  - intros H. apply (Permutation_in _ (Permutation_sym (chart_names_perm data))).
    destruct (in_dec string_dec k (map fst (Dashboard.groupedData data)))
      as [I|I]; [exact I|].
    apply get_None_keys in I. rewrite groupedData_get in I.
    destruct (Dashboard.rows_of k data); [contradiction|discriminate].
Qed.

(** X17.  The chart has one bar per identifier under which some proband row
    is counted: bar names are pairwise different, and a name has a bar
    exactly when at least one proband row carries it (rows whose identifier
    is missing, empty or [N/A] are under no bar). *)
Theorem chart_has_one_bar_per_identifier (data : list Dashboard.row) :
  NoDup (map Dashboard.name (Dashboard.chartData data)) /\
  forall k, In k (map Dashboard.name (Dashboard.chartData data)) <->
            Dashboard.rows_of k data <> [].
Proof.
  split; [apply chart_names_NoDup|]. intros k. apply chart_names_In.
Qed.

Lemma bar_total_rows (data : list Dashboard.row) (b : Dashboard.bar) :
  In b (Dashboard.chartData data) ->
  Dashboard.bar_total b = Dashboard.size (Dashboard.rows_of (Dashboard.name b) data).
Proof.
  intros Hb. destruct (chartData_In data b Hb) as (c & Hg & HR & HA & HP).
  rewrite groupedData_get in Hg.
  destruct (Dashboard.rows_of (Dashboard.name b) data); [discriminate|].
  injection Hg as <-.
  cbn [Dashboard.total Dashboard.reported Dashboard.analyzed] in HR, HA, HP.
  unfold Dashboard.bar_total. lia.
Qed.

Lemma rows_by_names (keys : list string) (l : list Dashboard.row) :
  NoDup keys ->
  Dashboard.sum
    (map (fun k => Dashboard.size
                     (filter (fun r => match Dashboard.counted_under r with
                                       | Some k' => String.eqb k' k
                                       | None => false
                                       end) l)) keys)
  = Dashboard.size
      (filter (fun r => match Dashboard.counted_under r with
                        | Some k' => Str.in_chr k' keys
                        | None => false
                        end) l).
Proof.
  unfold Dashboard.size. induction 1 as [|k0 ks Hn Hnd IH]; simpl.
  - induction l as [|r l IHl]; [reflexivity|]. simpl.
    destruct (Dashboard.counted_under r); exact IHl.
  - rewrite IH. clear IH. induction l as [|r l IHl]; [reflexivity|].
    cbn [filter]. destruct (Dashboard.counted_under r) as [k|]; [|exact IHl].
    destruct (String.eqb_spec k k0) as [->|N]; cbn [orb].
    + destruct (Str.in_chr k0 ks) eqn:I; [apply in_chr_In in I; contradiction|].
      cbn [List.length]. lia.
    + destruct (Str.in_chr k ks); cbn [List.length]; lia.
Qed.

(** X20.  The chart accounts for every proband row with a usable identifier
    exactly once: the segments of all bars add up to the number of proband
    rows counted under some name, which is at most the proband count of the
    summary cards, itself at most the total number of samples. *)
Theorem chart_accounts_for_probands (data : list Dashboard.row) :
  let counted :=
    filter (fun r => match Dashboard.counted_under r with
                     | Some _ => true
                     | None => false
                     end) (Dashboard.probandData data) in
  Dashboard.sum (map Dashboard.bar_total (Dashboard.chartData data))
    = Dashboard.size counted /\
  Dashboard.size counted <= Dashboard.probandCount (Dashboard.summaryStats data) /\
  Dashboard.probandCount (Dashboard.summaryStats data)
    <= Dashboard.totalSamples (Dashboard.summaryStats data).
Proof.
  intros counted. split; [|split].
  - assert (E1 : map Dashboard.bar_total (Dashboard.chartData data)
                 = map (fun k => Dashboard.size (Dashboard.rows_of k data))
                       (map Dashboard.name (Dashboard.chartData data))).
    { rewrite map_map. apply map_ext_in. intros b Hb. apply bar_total_rows, Hb. }
    rewrite E1. unfold Dashboard.rows_of.
    rewrite (rows_by_names _ _ (chart_names_NoDup data)).
    unfold counted. f_equal. apply filter_ext_on. intros r Hr.
    destruct (Dashboard.counted_under r) as [k|] eqn:Ek; [|reflexivity].
    apply in_chr_In, chart_names_In. unfold Dashboard.rows_of.
    intros E. assert (Hin : In r (filter (fun r0 =>
                        match Dashboard.counted_under r0 with
                        | Some k' => String.eqb k' k
                        | None => false
                        end) (Dashboard.probandData data))).
    { apply filter_In. split; [exact Hr|]. rewrite Ek. apply String.eqb_refl. }
    rewrite E in Hin. destruct Hin.
  - unfold counted, Dashboard.size, Dashboard.summaryStats.
    destruct data as [|r data]; [simpl; lia|].
    cbn [Dashboard.probandCount]. unfold Dashboard.count.
    fold (Dashboard.probandData (r :: data)).
    pose proof (filter_length_le
                  (fun r0 => match Dashboard.counted_under r0 with
                             | Some _ => true
                             | None => false
                             end) (Dashboard.probandData (r :: data))). lia.
  - unfold Dashboard.summaryStats. destruct data as [|r data]; [simpl; lia|].
    cbn [Dashboard.probandCount Dashboard.totalSamples]. unfold Dashboard.count.
    pose proof (filter_length_le
                  (fun d => Dashboard.strict_eq (Dashboard.proband d) "1")
                  (r :: data)). lia.
Qed.

(** * The dashboard's schedule reader *)

Lemma split_not_nil (sep : ascii) (s : string) : Js.split sep s <> [].
Proof.
  destruct s as [|c s]; simpl; [discriminate|].
  destruct (Ascii.eqb c sep); [discriminate|].
  destruct (Js.split sep s); discriminate.
Qed.

Lemma split_free (sep : ascii) (s : string) :
  Js.free_of sep s -> Js.split sep s = [s].
Proof.
  unfold Js.free_of. induction s as [|c s IH]; simpl; intros H; [reflexivity|].
  inversion H as [|? ? Hc Hs]; subst.
  destruct (Ascii.eqb_spec c sep) as [E|_]; [contradiction|].
  rewrite (IH Hs). reflexivity.
Qed.

Lemma split_app (sep : ascii) (w r : string) :
  Js.free_of sep w ->
  Js.split sep (w ++ String sep r) = w :: Js.split sep r.
Proof.
  unfold Js.free_of. induction w as [|c w IH]; simpl; intros H.
  - rewrite Ascii.eqb_refl. reflexivity.
  - inversion H as [|? ? Hc Hw]; subst.
    destruct (Ascii.eqb_spec c sep) as [E|_]; [contradiction|].
    rewrite (IH Hw). reflexivity.
Qed.

Lemma split_join (sep : ascii) (ws : list string) :
  ws <> [] -> Forall (Js.free_of sep) ws ->
  Js.split sep (Js.join sep ws) = ws.
Proof.
  induction ws as [|w ws IH]; intros Hne HF; [congruence|].
  inversion HF as [|? ? Hw Hws]; subst.
  destruct ws as [|w' ws].
  - simpl. apply split_free, Hw.
  - change (Js.join sep (w :: w' :: ws))
      with (w ++ String sep (Js.join sep (w' :: ws)))%string.
    rewrite split_app by exact Hw. f_equal. apply IH; [discriminate|exact Hws].
Qed.

Lemma free_of_app (c : ascii) (a b : string) :
  Js.free_of c a -> Js.free_of c b -> Js.free_of c (a ++ b).
Proof.
  unfold Js.free_of. rewrite list_ascii_app. intros; apply Forall_app; auto.
Qed.

Lemma free_of_join (c sep : ascii) (ws : list string) :
  sep <> c -> Forall (Js.free_of c) ws -> Js.free_of c (Js.join sep ws).
Proof.
  intros Hsep. induction 1 as [|w ws Hw _ IH]; [constructor|].
  destruct ws as [|w' ws]; [exact Hw|].
  change (Js.join sep (w :: w' :: ws))
    with (w ++ String sep (Js.join sep (w' :: ws)))%string.
  apply free_of_app; [exact Hw|].
  unfold Js.free_of in *. simpl. constructor; [exact Hsep|exact IH].
Qed.

Lemma remove_quotes_free (s : string) : Js.free_of Js.dquote (Js.remove_quotes s).
Proof.
  unfold Js.free_of. induction s as [|c s IH]; simpl; [constructor|].
  destruct (Ascii.eqb_spec c Js.dquote); [exact IH|].
  simpl. constructor; assumption.
Qed.

Lemma truthy_Some (v : option string) :
  Js.truthy v = true <-> exists s, v = Some s /\ s <> EmptyString.
Proof.
  destruct v as [[|c s]|]; simpl.
  - split; [discriminate|]. intros (s & H & N). congruence.
  - split; [|reflexivity]. intros _. eexists. split; [reflexivity|discriminate].
  - split; [discriminate|]. intros (s & H & _). discriminate.
Qed.

(** X18.  Whatever text it is given, the schedule reader returns only
    entries with a non-empty sample identifier free of double quotes and a
    non-empty meeting date, never more entries than there are lines after
    the header; a text with no line after the header gives no entry. *)
Theorem schedule_reader_keeps_complete_lines (csvString : string) :
  let lines := Js.split Js.newline (Js.trim csvString) in
  Forall (fun it =>
            Js.sampleId it <> EmptyString /\
            Js.free_of Js.dquote (Js.sampleId it) /\
            exists d, Js.meetingDate it = Some d /\ d <> EmptyString)
         (Js.parseScheduleCsv csvString) /\
  (List.length (Js.parseScheduleCsv csvString) <= List.length lines - 1)%nat /\
  (Js.free_of Js.newline (Js.trim csvString) -> Js.parseScheduleCsv csvString = []).
Proof.
  intros lines. unfold Js.parseScheduleCsv. fold lines.
  split; [|split].
  - destruct (List.length lines <? 2)%nat; [constructor|].
    destruct (Js.indexOf "Sample ID" _) as [i|]; [|constructor].
    destruct (Js.indexOf "meeting_date" _) as [j|]; [|constructor].
    apply Forall_forall. intros it Hit. apply filter_In in Hit.
    destruct Hit as [Hin Hk]. unfold Js.keep in Hk.
    apply andb_true_iff in Hk. destruct Hk as [Hs Hd].
    apply truthy_Some in Hs, Hd. destruct Hs as (s & Hs & Hne).
    injection Hs as <-. split; [exact Hne|]. split; [|exact Hd].
    apply in_map_iff in Hin. destruct Hin as (row & <- & _).
    unfold Js.parse_row. simpl.
    destruct (Js.truthy _); [|constructor].
    destruct (nth_error _ i); [apply remove_quotes_free|constructor].
  - destruct (List.length lines <? 2)%nat; [simpl; lia|].
    destruct (Js.indexOf "Sample ID" _) as [i|]; [|simpl; lia].
    destruct (Js.indexOf "meeting_date" _) as [j|]; [|simpl; lia].
    etransitivity; [apply filter_length_le|].
    rewrite length_map. destruct lines; simpl; lia.
  - intros Hfree. unfold lines. rewrite (split_free _ _ Hfree). reflexivity.
Qed.

(** X19.  Reading back a table written as comma-separated lines: when no
    field holds a comma or a line break, the text has no white space at
    either end, and the header names [Sample ID] at position [i] and
    [meeting_date] at position [j], the reader returns, in order, the
    identifier (double quotes removed) and the date of every row in which
    both are present and non-empty. *)
Theorem schedule_reader_round_trip (header : list string)
    (rows : list (list string)) (i j : nat) :
  Js.plain_row header -> Forall Js.plain_row rows ->
  Js.trim (Js.csv_text header rows) = Js.csv_text header rows ->
  Js.indexOf "Sample ID" (map (fun h => Js.remove_quotes (Js.trim h)) header) = Some i ->
  Js.indexOf "meeting_date" (map (fun h => Js.remove_quotes (Js.trim h)) header) = Some j ->
  Js.parseScheduleCsv (Js.csv_text header rows)
  = filter Js.keep
      (map (fun fields =>
              Js.mkItem (if Js.truthy (nth_error fields i)
                         then match nth_error fields i with
                              | Some v => Js.remove_quotes v
                              | None => EmptyString
                              end
                         else EmptyString)
                        (nth_error fields j))
           rows).
Proof.
  intros Hh Hr Htrim Hi Hj. unfold Js.parseScheduleCsv. rewrite Htrim.
  assert (Hcomma : ","%char <> Js.newline) by discriminate.
  assert (Hlines : Js.split Js.newline (Js.csv_text header rows)
                   = map (Js.join ",") (header :: rows)).
  { unfold Js.csv_text. apply split_join; [discriminate|].
    apply Forall_map. constructor.
    - destruct Hh as [_ F]. apply free_of_join; [exact Hcomma|].
      eapply Forall_impl; [|exact F]. intros f [_ H]. exact H.
    - eapply Forall_impl; [|exact Hr]. intros fields [_ F].
      apply free_of_join; [exact Hcomma|].
      eapply Forall_impl; [|exact F]. intros f [_ H]. exact H. }
  rewrite Hlines. cbn [map hd tl List.length].
  assert (Hsplit : forall fields, Js.plain_row fields ->
                     Js.split "," (Js.join "," fields) = fields).
  { intros fields [Hne F]. apply split_join; [exact Hne|].
    eapply Forall_impl; [|exact F]. intros f [H _]. exact H. }
  rewrite (Hsplit header Hh), Hi, Hj.
  destruct rows as [|row rows]; [reflexivity|].
  replace (S (List.length (map (Js.join ",") (row :: rows))) <? 2)%nat
    with false by (symmetry; apply Nat.ltb_ge; simpl; lia).
  rewrite map_map. f_equal. apply map_ext_in. intros fields Hin.
  unfold Js.parse_row. rewrite Forall_forall in Hr.
  rewrite (Hsplit fields (Hr fields Hin)). reflexivity.
Qed.

Lemma free_ofb_free (c : ascii) (s : string) :
  Js.free_ofb c s = true -> Js.free_of c s.
Proof.
  unfold Js.free_ofb, Js.free_of. rewrite forallb_forall, Forall_forall.
  intros H x Hx E. specialize (H x Hx). subst x.
  rewrite Ascii.eqb_refl in H. discriminate.
Qed.

Lemma plain_rowb_plain (fields : list string) :
  Js.plain_rowb fields = true -> Js.plain_row fields.
Proof.
  unfold Js.plain_rowb, Js.plain_row. destruct fields as [|f fields]; [discriminate|].
  intros H. split; [discriminate|]. rewrite forallb_forall in H.
  apply Forall_forall. intros x Hx. specialize (H x Hx).
  apply andb_true_iff in H. destruct H. split; apply free_ofb_free; assumption.
Qed.

Lemma schedule_reader_round_trip_witness :
  Js.parseScheduleCsv (Js.csv_text schedule_header schedule_lines)
  = [ Js.mkItem "MCW_SVI_0003" (Some "2025-11-07") ].
Proof.
  rewrite (schedule_reader_round_trip schedule_header schedule_lines 0 10).
  - reflexivity.
  - apply plain_rowb_plain. reflexivity.
  - apply Forall_cons; [apply plain_rowb_plain; reflexivity|].
    apply Forall_cons; [apply plain_rowb_plain; reflexivity|apply Forall_nil].
  - reflexivity.
  - reflexivity.
  - reflexivity.
Defined.
